(** * Shallow embedding of the stetl ETL driver and the archive/file filters

    Sources embedded:
    - [src/src/setl/etl.py]                  : [ETL.__init__], [ETL.run]
    - [src/stetl/filters/fileextractor.py]   : [FileExtractor], [ZipFileExtractor],
                                               [VsiFileExtractor]
    - [src/stetl/filters/archiveexpander.py] : [ArchiveExpander], [ZipArchiveExpander]

    Python code raises exceptions and mutates the file system, the GDAL
    virtual-file handles and the log.  It is embedded in a state and
    exception monad [st S A := S -> res A * S]: an exception keeps the side
    effects made before it, as in Python.  Python strings are byte strings
    (the code base is Python 2: [ConfigParser], [StringIO]). *)

From Stdlib Require Import String Ascii List Bool ZArith Lia.
Import ListNotations.
Open Scope string_scope.
Set Warnings "-register-all".
Open Scope list_scope.

(** ** Exceptions and the state/exception monad *)

Inductive exn :=
| AttributeError
| KeyError
| TypeError
| ValueError
| IOError
| OSError
| RecursionError
| GdalError
| BadZipFile
| NoSectionError
| NoOptionError
| ParsingError.

Inductive res (A : Type) :=
| Ok (a : A)
| Exc (e : exn).
Arguments Ok {A} a.
Arguments Exc {A} e.

Definition st (S A : Type) := S -> res A * S.

Definition ret {S A} (a : A) : st S A := fun s => (Ok a, s).

Definition bind {S A B} (m : st S A) (k : A -> st S B) : st S B :=
  fun s => match m s with
           | (Ok a, s') => k a s'
           | (Exc e, s') => (Exc e, s')
           end.

Definition raise {S A} (e : exn) : st S A := fun s => (Exc e, s).

(** A pure computation that may raise. *)
Definition lift_res {S A} (r : res A) : st S A := fun s => (r, s).

(** [try: m except: h] : every exception is caught. *)
Definition try_except {S A} (m : st S A) (h : exn -> st S A) : st S A :=
  fun s => match m s with
           | (Ok a, s') => (Ok a, s')
           | (Exc e, s') => h e s'
           end.

(** [try: m finally: fin] : [fin] runs on both exits; an exception of
    [fin] replaces the pending outcome. *)
Definition try_finally {S A} (m : st S A) (fin : st S unit) : st S A :=
  fun s => match m s with
           | (r, s') => match fin s' with
                        | (Ok _, s'') => (r, s'')
                        | (Exc e, s'') => (Exc e, s'')
                        end
           end.

Notation "x <- m ;; k" := (bind m (fun x => k))
  (at level 61, m at next level, right associativity).
Notation "m ;;; k" := (bind m (fun _ => k))
  (at level 61, right associativity).

(** ** Python values and packets *)

Inductive pyval :=
| PNone
| PBool (b : bool)
| PStr (s : string)
| PDict (kv : list (string * pyval)).

(** [stetl.packet.Packet]: only its [data] field is read or written here. *)
Record packet := mkPacket { data : pyval }.

(** Reading [packet.data] where [packet] may be Python's [None]. *)
Definition get_data {S} (p : option packet) : st S pyval :=
  match p with
  | Some pk => ret (data pk)
  | None => raise AttributeError
  end.

(** [d[k]] on a dict value. *)
Fixpoint dict_get (kv : list (string * pyval)) (k : string) : res pyval :=
  match kv with
  | [] => Exc KeyError
  | (k', v) :: kv' => if String.eqb k k' then Ok v else dict_get kv' k
  end.

(** ** The file system

    A tree of directories and regular files; a directory lists its entries
    in the order [os.listdir] returns them. *)

Inductive node :=
| File (contents : string)
| Dir (entries : list (string * node)).

Fixpoint assoc {A} (x : string) (l : list (string * A)) : option A :=
  match l with
  | [] => None
  | (y, a) :: l' => if String.eqb x y then Some a else assoc x l'
  end.

(** Setting (or, with [None], deleting) entry [x] of a directory listing.
    A new entry is listed last. *)
Definition set_entry (x : string) (o : option node) (es : list (string * node))
  : list (string * node) :=
  match o with
  | None => filter (fun e => negb (String.eqb x (fst e))) es
  | Some n =>
      match assoc x es with
      | Some _ => map (fun e => if String.eqb x (fst e) then (x, n) else e) es
      | None => es ++ [(x, n)]
      end
  end.

Fixpoint lookup (n : node) (p : list string) : option node :=
  match p with
  | [] => Some n
  | x :: p' =>
      match n with
      | File _ => None
      | Dir es => match assoc x es with
                  | Some c => lookup c p'
                  | None => None
                  end
      end
  end.

(** Updating the entry at path [p] (whose parent must be a directory). *)
Fixpoint upd (n : node) (p : list string) (f : option node -> option node) : node :=
  match p with
  | [] => n
  | [x] => match n with
           | Dir es => Dir (set_entry x (f (assoc x es)) es)
           | File _ => n
           end
  | x :: p' => match n with
               | Dir es => match assoc x es with
                           | Some c => Dir (set_entry x (Some (upd c p' f)) es)
                           | None => n
                           end
               | File _ => n
               end
  end.

(** Path strings: components are separated by ['/']; empty components
    are dropped.  All paths are taken relative to one root. *)
Definition slash : ascii := "/"%char.

Fixpoint split_acc (s : string) (cur : string) : list string :=
  match s with
  | EmptyString => if String.eqb cur "" then [] else [cur]
  | String c s' =>
      if Ascii.eqb c slash
      then (if String.eqb cur "" then [] else [cur]) ++ split_acc s' ""
      else split_acc s' (cur ++ String c "")
  end.

Definition split_path (s : string) : list string := split_acc s "".

Fixpoint ends_with_slash (s : string) : bool :=
  match s with
  | EmptyString => false
  | String c EmptyString => Ascii.eqb c slash
  | String _ s' => ends_with_slash s'
  end.

Definition starts_with_slash (s : string) : bool :=
  match s with
  | String c _ => Ascii.eqb c slash
  | EmptyString => false
  end.

(** [os.path.join(a, b)] (posixpath). *)
Definition py_join (a b : string) : string :=
  if starts_with_slash b then b
  else if String.eqb a "" then b
  else if ends_with_slash a then a ++ b
  else a ++ "/" ++ b.

(** ** The world the filters act on *)

(** An open GDAL virtual file: its path and read position. *)
Record vsi_handle := mkHandle { vh_path : string; vh_pos : nat }.

Record world := mkWorld {
  fs : node;                                (* the local file system *)
  vsi_files : list (string * string);       (* /vsi paths GDAL can open *)
  handles : list (nat * vsi_handle);        (* open VSI file handles *)
  next_handle : nat;
  faults : list bool;                       (* failures of GDAL and write calls *)
  log : list string
}.

Definition set_fs (w : world) (n : node) : world :=
  mkWorld n (vsi_files w) (handles w) (next_handle w) (faults w) (log w).

Definition set_handles (w : world) (hs : list (nat * vsi_handle)) (nh : nat) : world :=
  mkWorld (fs w) (vsi_files w) hs nh (faults w) (log w).

Definition set_faults (w : world) (fl : list bool) : world :=
  mkWorld (fs w) (vsi_files w) (handles w) (next_handle w) fl (log w).

Definition add_log (w : world) (msg : string) : world :=
  mkWorld (fs w) (vsi_files w) (handles w) (next_handle w) (faults w) (log w ++ [msg]).

Definition log_msg (msg : string) : st world unit :=
  fun w => (Ok tt, add_log w msg).

(** An external call that can fail: it consumes one entry of the fault
    schedule and raises [e] when that entry is [true]. *)
Definition may_fail (e : exn) : st world unit :=
  fun w => match faults w with
           | true :: fl => (Exc e, set_faults w fl)
           | false :: fl => (Ok tt, set_faults w fl)
           | [] => (Ok tt, w)
           end.

(** ** [os] and [os.path] *)

(** The contents of the regular file at [p]; the root ([split_path p = []])
    is a directory. *)
Definition node_read (n : node) (p : string) : option string :=
  match split_path p with
  | [] => None
  | _ :: _ => match lookup n (split_path p) with
              | Some (File c) => Some c
              | _ => None
              end
  end.

Definition node_isfile (n : node) (p : string) : bool :=
  match node_read n p with
  | Some _ => true
  | None => false
  end.

Definition node_isdir (n : node) (p : string) : bool :=
  match lookup n (split_path p) with
  | Some (Dir _) => true
  | _ => false
  end.

Definition os_path_isfile (p : string) : st world bool :=
  fun w => (Ok (node_isfile (fs w) p), w).

Definition os_path_isdir (p : string) : st world bool :=
  fun w => (Ok (node_isdir (fs w) p), w).

Definition node_remove (n : node) (p : string) : node :=
  upd n (split_path p) (fun _ => None).

Definition os_remove (p : string) : st world unit :=
  fun w => if node_isfile (fs w) p
           then (Ok tt, set_fs w (node_remove (fs w) p))
           else (Exc OSError, w).

Definition os_rmdir (p : string) : st world unit :=
  fun w => match split_path p, lookup (fs w) (split_path p) with
           | _ :: _, Some (Dir []) => (Ok tt, set_fs w (node_remove (fs w) p))
           | _, _ => (Exc OSError, w)
           end.

Definition os_listdir (p : string) : st world (list string) :=
  fun w => match lookup (fs w) (split_path p) with
           | Some (Dir es) => (Ok (map fst es), w)
           | _ => (Exc OSError, w)
           end.

(** [open(p, 'wb')]: the parent must be a directory and [p] not one. *)
Definition os_open_write (p : string) : st world unit :=
  fun w => match split_path p with
           | [] => (Exc IOError, w)
           | _ :: _ =>
               match lookup (fs w) (removelast (split_path p)),
                     lookup (fs w) (split_path p) with
               | Some (Dir _), Some (Dir _) => (Exc IOError, w)
               | Some (Dir _), _ =>
                   (Ok tt, set_fs w (upd (fs w) (split_path p) (fun _ => Some (File ""))))
               | _, _ => (Exc IOError, w)
               end
           end.

(** [f.write(buf)] on a file opened by [os_open_write]. *)
Definition os_write (p : string) (buf : string) : st world unit :=
  may_fail IOError ;;;
  fun w => (Ok tt, set_fs w (upd (fs w) (split_path p)
                               (fun o => match o with
                                         | Some (File c) => Some (File (c ++ buf))
                                         | _ => Some (File buf)
                                         end))).

(** [open(p, 'r').read()]. *)
Definition os_read_file (p : string) : st world string :=
  fun w => match node_read (fs w) p with
           | Some c => (Ok c, w)
           | None => (Exc IOError, w)
           end.

(** ** String helpers of the Python standard library *)

Fixpoint str_prefix (p s : string) : bool :=
  match p, s with
  | EmptyString, _ => true
  | String c p', String d s' => Ascii.eqb c d && str_prefix p' s'
  | String _ _, EmptyString => false
  end.

(** [sub in s]. *)
Fixpoint str_contains (sub s : string) : bool :=
  str_prefix sub s ||
  match s with
  | EmptyString => false
  | String _ s' => str_contains sub s'
  end.

(** [s.endswith(suf)]. *)
Definition str_endswith (s suf : string) : bool :=
  let n := String.length s in
  let m := String.length suf in
  (m <=? n)%nat && String.eqb (substring (n - m) m s) suf.

Definition ascii_lower (c : ascii) : ascii :=
  let n := nat_of_ascii c in
  if ((65 <=? n) && (n <=? 90))%nat then ascii_of_nat (n + 32) else c.

(** [s.lower()]. *)
Fixpoint str_lower (s : string) : string :=
  match s with
  | EmptyString => EmptyString
  | String c s' => String (ascii_lower c) (str_lower s')
  end.

(** ** [safe_filename] (identical in [FileExtractor] and [ArchiveExpander])

    [re.sub(r'[^a-zA-Z0-9.]', '_', name)] : every character outside the
    class [a-zA-Z0-9.] becomes ['_']. *)

Definition in_safe_class (c : ascii) : bool :=
  let n := nat_of_ascii c in
  ((97 <=? n) && (n <=? 122))%nat      (* a-z *)
  || ((65 <=? n) && (n <=? 90))%nat    (* A-Z *)
  || ((48 <=? n) && (n <=? 57))%nat    (* 0-9 *)
  || Ascii.eqb c "."%char.

Fixpoint safe_filename (name : string) : string :=
  match name with
  | EmptyString => EmptyString
  | String c s => String (if in_safe_class c then c else "_"%char) (safe_filename s)
  end.

(** [re.sub] on a Python value: only a string is accepted. *)
Definition safe_filename_py (v : pyval) : res string :=
  match v with
  | PStr s => Ok (safe_filename s)
  | _ => Exc TypeError
  end.

(** [fmt % arg] with one string argument: [%%] gives ['%'], the first [%s]
    takes [arg]; a second [%s] ("not enough arguments"), an argument left
    unconverted ("not all arguments converted") and any other conversion
    raise [TypeError]; a trailing ['%'] raises [ValueError]. *)
Fixpoint py_format_loop (fmt : string) (arg : string) (used : bool) : res string :=
  match fmt with
  | EmptyString => if used then Ok EmptyString else Exc TypeError
  | String c fmt' =>
      if Ascii.eqb c "%"%char then
        match fmt' with
        | EmptyString => Exc ValueError
        | String d fmt'' =>
            if Ascii.eqb d "%"%char then
              match py_format_loop fmt'' arg used with
              | Ok r => Ok (String "%"%char r)
              | Exc e => Exc e
              end
            else if Ascii.eqb d "s"%char then
              if used then Exc TypeError
              else match py_format_loop fmt'' arg true with
                   | Ok r => Ok (arg ++ r)%string
                   | Exc e => Exc e
                   end
            else Exc TypeError
        end
      else match py_format_loop fmt' arg used with
           | Ok r => Ok (String c r)
           | Exc e => Exc e
           end
  end.

Definition py_format_s (fmt arg : string) : res string := py_format_loop fmt arg false.

Definition res_bind {A B} (r : res A) (k : A -> res B) : res B :=
  match r with
  | Ok a => k a
  | Exc e => Exc e
  end.

Definition data_of (p : option packet) : res pyval :=
  match p with
  | Some pk => Ok (data pk)
  | None => Exc AttributeError
  end.

(** ** [FileExtractor] (fileextractor.py) *)

Definition DEFAULT_BUFFER_SIZE : Z := 1024 * 1024 * 1024.

(** The [@Config] attributes of a [FileExtractor] instance. *)
Record FileExtractorCfg := mkFECfg {
  file_path : string;
  delete_file : bool;        (* default True *)
  buffer_size : Z            (* default DEFAULT_BUFFER_SIZE *)
}.

(** The methods a subclass overrides: [output_path] (pure, but it may
    raise) and [extract_file]. *)
Record FileExtractorCls := mkFECls {
  output_path : FileExtractorCfg -> option packet -> res string;
  extract_file : FileExtractorCfg -> option packet -> st world unit
}.

Definition FE_delete_target_file (C : FileExtractorCls) (cfg : FileExtractorCfg)
  (p : option packet) : st world unit :=
  op <- lift_res (output_path C cfg p) ;;
  b <- os_path_isfile op ;;
  if b then (op' <- lift_res (output_path C cfg p) ;; os_remove op') else ret tt.

Definition FE_invoke (C : FileExtractorCls) (cfg : FileExtractorCfg) (pk : packet)
  : st world packet :=
  match data pk with
  | PNone => log_msg "Input data is empty" ;;; ret pk
  | _ =>
      FE_delete_target_file C cfg (Some pk) ;;;
      extract_file C cfg (Some pk) ;;;
      op <- lift_res (output_path C cfg (Some pk)) ;;
      b <- os_path_isfile op ;;
      if b then ret (mkPacket (PStr op))
      else (log_msg ("Extracted file " ++ op ++ " does not exist") ;;; ret (mkPacket PNone))
  end.

(** Returns Python's [None] on the early [return], [True] otherwise. *)
Definition FE_after_chain_invoke (C : FileExtractorCls) (cfg : FileExtractorCfg)
  (p : option packet) : st world pyval :=
  if negb (delete_file cfg) then ret PNone
  else FE_delete_target_file C cfg p ;;; ret (PBool true).

(** The abstract base class itself. *)
Definition FileExtractor : FileExtractorCls :=
  mkFECls (fun cfg _ => Ok (file_path cfg))
          (fun _ _ => log_msg "Only classes derived from FileExtractor can be used!").

(** *** [ZipFileExtractor] *)

Definition Zip_output_path (cfg : FileExtractorCfg) (p : option packet) : res string :=
  res_bind (data_of p) (fun d =>
  match d with
  | PDict kv =>
      if str_contains "%s" (file_path cfg)
      then res_bind (dict_get kv "name") (fun n =>
           res_bind (safe_filename_py n) (fun s => py_format_s (file_path cfg) s))
      else Ok (file_path cfg)
  | _ => Ok (file_path cfg)
  end).

(** [data[k]] on a packet payload: indexing a non-dict by a string key
    raises [TypeError]. *)
Definition index_key (d : pyval) (k : string) : res pyval :=
  match d with
  | PDict kv => dict_get kv k
  | _ => Exc TypeError
  end.

Definition as_str (v : pyval) : res string :=
  match v with
  | PStr s => Ok s
  | _ => Exc TypeError
  end.

(** Successive [zf.read(bs)] results until the empty read. *)
Fixpoint chunks_fuel (fuel n : nat) (s : string) : list string :=
  match fuel with
  | O => []
  | S f => if String.eqb s "" then []
           else substring 0 n s :: chunks_fuel f n (substring n (String.length s - n) s)
  end.

Definition read_chunks (bs : Z) (s : string) : list string :=
  if (bs <? 0)%Z then (if String.eqb s "" then [] else [s])
  else if (bs =? 0)%Z then []
  else chunks_fuel (String.length s) (Z.to_nat bs) s.

Fixpoint write_chunks (op : string) (l : list string) : st world unit :=
  match l with
  | [] => ret tt
  | c :: l' => os_write op c ;;; write_chunks op l'
  end.

Section ZipLibrary.
(** The member table of a zip archive, as [zipfile] decodes the bytes of
    the archive ([None]: not a zip file). *)
Variable unzip : string -> option (list (string * string)).

Definition Zip_extract_file (cfg : FileExtractorCfg) (p : option packet) : st world unit :=
  d <- get_data p ;;
  zp <- lift_res (res_bind (index_key d "file_path") as_str) ;;
  zbytes <- os_read_file zp ;;
  members <- lift_res (match unzip zbytes with
                       | Some m => Ok m
                       | None => Exc BadZipFile
                       end) ;;
  op <- lift_res (Zip_output_path cfg p) ;;
  os_open_write op ;;;
  name <- lift_res (res_bind (index_key d "name") as_str) ;;
  member <- lift_res (match assoc name members with
                      | Some c => Ok c
                      | None => Exc KeyError
                      end) ;;
  write_chunks op (read_chunks (buffer_size cfg) member).

Definition ZipFileExtractor : FileExtractorCls :=
  mkFECls Zip_output_path Zip_extract_file.
End ZipLibrary.

(** *** [VsiFileExtractor] and the GDAL [VSIF*L] calls *)

Fixpoint hlookup (h : nat) (l : list (nat * vsi_handle)) : option vsi_handle :=
  match l with
  | [] => None
  | (h', v) :: l' => if Nat.eqb h h' then Some v else hlookup h l'
  end.

Definition hupdate (h : nat) (v : vsi_handle) (l : list (nat * vsi_handle))
  : list (nat * vsi_handle) :=
  map (fun e => if Nat.eqb h (fst e) then (h, v) else e) l.

Definition hremove (h : nat) (l : list (nat * vsi_handle)) : list (nat * vsi_handle) :=
  filter (fun e => negb (Nat.eqb h (fst e))) l.

Definition vsi_content (w : world) (path : string) : string :=
  match assoc path (vsi_files w) with
  | Some c => c
  | None => ""
  end.

(** [gdal.VSIFOpenL(path, 'rb')]: a new handle, or [None] when GDAL
    cannot open the path. *)
Definition VSIFOpenL (path : pyval) : st world (option nat) :=
  match path with
  | PStr s =>
      may_fail GdalError ;;;
      fun w => match assoc s (vsi_files w) with
               | Some _ =>
                   let h := next_handle w in
                   (Ok (Some h), set_handles w ((h, mkHandle s 0) :: handles w) (S h))
               | None => (Ok None, w)
               end
  | _ => raise TypeError
  end.

(** A [None] handle is refused by the bindings ("Received a NULL pointer"). *)
Definition with_handle {A} (v : option nat) (k : nat -> vsi_handle -> st world A)
  : st world A :=
  match v with
  | None => raise ValueError
  | Some h => fun w => match hlookup h (handles w) with
                       | Some hd => k h hd w
                       | None => (Exc ValueError, w)
                       end
  end.

Definition set_pos (h : nat) (hd : vsi_handle) (pos : nat) : st world unit :=
  fun w => (Ok tt, set_handles w (hupdate h (mkHandle (vh_path hd) pos) (handles w))
                                 (next_handle w)).

(** [gdal.VSIFSeekL(vsi, off, whence)] for [whence] 0 (SEEK_SET) and 2 (SEEK_END). *)
Definition VSIFSeekL (v : option nat) (off : nat) (whence : nat) : st world unit :=
  may_fail GdalError ;;;
  with_handle v (fun h hd w =>
    let len := String.length (vsi_content w (vh_path hd)) in
    set_pos h hd (if Nat.eqb whence 2 then len + off else off) w).

Definition VSIFTellL (v : option nat) : st world Z :=
  may_fail GdalError ;;;
  with_handle v (fun _ hd => ret (Z.of_nat (vh_pos hd))).

(** [gdal.VSIFReadL(1, size, vsi)]. *)
Definition VSIFReadL (size : Z) (v : option nat) : st world string :=
  may_fail GdalError ;;;
  with_handle v (fun h hd w =>
    let c := vsi_content w (vh_path hd) in
    let buf := substring (vh_pos hd) (Z.to_nat size) c in
    (Ok buf, snd (set_pos h hd (vh_pos hd + String.length buf) w))).

Definition VSIFCloseL (v : option nat) : st world unit :=
  match v with
  | None => raise ValueError
  | Some h => fun w => (Ok tt, set_handles w (hremove h (handles w)) (next_handle w))
  end.

Definition Vsi_output_path (cfg : FileExtractorCfg) (p : option packet) : res string :=
  res_bind (data_of p) (fun d =>
  match d with
  | PStr s =>
      if str_contains "%s" (file_path cfg)
      then py_format_s (file_path cfg) (safe_filename s)
      else Ok (file_path cfg)
  | _ => Ok (file_path cfg)
  end).

(** The local variables of [extract_file] that its [finally] clause reads. *)
Record vsi_locals := mkLocals { l_vsi : option nat; l_vsi_len : Z }.

Definition lw {L A} (m : st world A) : st (world * L) A :=
  fun s => let '(r, w') := m (fst s) in (r, (w', snd s)).

Definition set_vsi (v : option nat) : st (world * vsi_locals) unit :=
  fun s => (Ok tt, (fst s, mkLocals v (l_vsi_len (snd s)))).

Definition set_vsi_len (n : Z) : st (world * vsi_locals) unit :=
  fun s => (Ok tt, (fst s, mkLocals (l_vsi (snd s)) n)).

(** [while True: buffer = VSIFReadL(...); if not buffer: break; f.write(buffer)];
    [fuel] bounds the iterations (each non-empty read advances the handle). *)
Fixpoint vsi_copy_loop (v : option nat) (op : string) (read_size : Z) (fuel : nat)
  : st world unit :=
  match fuel with
  | O => ret tt
  | S f =>
      buf <- VSIFReadL read_size v ;;
      if String.eqb buf "" then ret tt
      else os_write op buf ;;; vsi_copy_loop v op read_size f
  end.

Definition py_str (v : pyval) : string :=
  match v with
  | PStr s => s
  | PNone => "None"
  | PBool b => if b then "True" else "False"
  | PDict _ => "{...}"
  end.

(** The body of the [try] block. *)
Definition Vsi_extract_body (cfg : FileExtractorCfg) (p : option packet) (path : pyval)
  : st (world * vsi_locals) unit :=
  lw (log_msg ("Extracting " ++ py_str path)) ;;;
  v <- lw (VSIFOpenL path) ;;
  set_vsi v ;;;
  op <- lw (lift_res (Vsi_output_path cfg p)) ;;
  lw (os_open_write op) ;;;
  lw (VSIFSeekL v 0 2) ;;;
  len <- lw (VSIFTellL v) ;;
  set_vsi_len len ;;;
  lw (VSIFSeekL v 0 0) ;;;
  let read_size := if (len <? buffer_size cfg)%Z then len else buffer_size cfg in
  lw (vsi_copy_loop v op read_size (S (Z.to_nat len))).

(** [except Exception as e: log.error(...); raise e]. *)
Definition Vsi_extract_handler (path : pyval) (e : exn) : st (world * vsi_locals) unit :=
  lw (log_msg ("Cannot extract " ++ py_str path)) ;;; raise e.

(** [finally: if vsi: ...; gdal.VSIFCloseL(vsi)]. *)
Definition Vsi_extract_finally (path : pyval) : st (world * vsi_locals) unit :=
  fun s => match l_vsi (snd s) with
           | Some h => (lw (log_msg ("Extracted " ++ py_str path ++ " ok")) ;;;
                        lw (VSIFCloseL (Some h))) s
           | None => (Ok tt, s)
           end.

Definition Vsi_extract_file (cfg : FileExtractorCfg) (p : option packet) : st world unit :=
  path <- get_data p ;;
  fun w =>
    let '(r, s') :=
      try_finally (try_except (Vsi_extract_body cfg p path) (Vsi_extract_handler path))
                  (Vsi_extract_finally path)
                  (w, mkLocals None 0%Z) in
    (r, fst s').

Definition VsiFileExtractor : FileExtractorCls :=
  mkFECls Vsi_output_path Vsi_extract_file.

(** ** [ArchiveExpander] (archiveexpander.py) *)

(** The [@Config] attributes of an [ArchiveExpander] instance. *)
Record ArchiveExpanderCfg := mkAECfg {
  target_dir : string;
  remove_input_file : bool;  (* default False *)
  clear_target_dir : bool    (* default True *)
}.

(** The method a subclass overrides: [expand_archive(file_path, output_path)]. *)
Record ArchiveExpanderCls := mkAECls {
  expand_archive : ArchiveExpanderCfg -> pyval -> string -> st world unit
}.

(** The instance attribute [self.input_archive_file] is mutable state of
    the filter: its methods run in [st (world * pyval)]. *)
Definition get_input_archive_file : st (world * pyval) pyval :=
  fun s => (Ok (snd s), s).

Definition set_input_archive_file (v : pyval) : st (world * pyval) unit :=
  fun s => (Ok tt, (fst s, v)).

Definition AE_output_path (cfg : ArchiveExpanderCfg) (p : option packet) : res string :=
  res_bind (data_of p) (fun d =>
  match d with
  | PStr s =>
      if str_contains "%s" (target_dir cfg)
      then py_format_s (target_dir cfg) (safe_filename s)
      else Ok (target_dir cfg)
  | _ => Ok (target_dir cfg)
  end).

(** [os.path.isfile] of a non-string raises [TypeError]. *)
Definition AE_remove_file (file_path : pyval) : st world unit :=
  match file_path with
  | PStr fp => b <- os_path_isfile fp ;; if b then os_remove fp else ret tt
  | _ => raise TypeError
  end.

(** The loop of [wipe_dir] over the listing taken on entry, [rec] being
    the recursive call: on the first subdirectory it wipes it, removes it
    with [os.rmdir] and [return]s. *)
Fixpoint wipe_dir_loop (rec : string -> st world unit) (dir_path : string)
  (names : list string) : st world unit :=
  match names with
  | [] => ret tt
  | file_object :: rest =>
      let file_object_path := py_join dir_path file_object in
      d <- os_path_isdir file_object_path ;;
      if d then (rec file_object_path ;;; os_rmdir file_object_path)
      else (os_remove file_object_path ;;; wipe_dir_loop rec dir_path rest)
  end.

(** [wipe_dir]; [fuel] is Python's recursion limit. *)
Fixpoint wipe_dir_rec (fuel : nat) (dir_path : string) : st world unit :=
  match fuel with
  | O => raise RecursionError
  | S f =>
      b <- os_path_isdir dir_path ;;
      if b then (names <- os_listdir dir_path ;; wipe_dir_loop (wipe_dir_rec f) dir_path names)
      else ret tt
  end.

Definition PY_RECURSION_LIMIT : nat := 1000.

Definition wipe_dir (dir_path : string) : st world unit :=
  wipe_dir_rec PY_RECURSION_LIMIT dir_path.

Definition AE_invoke (C : ArchiveExpanderCls) (cfg : ArchiveExpanderCfg) (pk : packet)
  : st (world * pyval) packet :=
  match data pk with
  | PNone => lw (log_msg "Input data is empty") ;;; ret pk
  | d =>
      formatted_output_path <- lift_res (AE_output_path cfg (Some pk)) ;;
      lw (wipe_dir formatted_output_path) ;;;
      set_input_archive_file d ;;;
      iaf <- get_input_archive_file ;;
      lw (expand_archive C cfg iaf formatted_output_path) ;;;
      names <- lw (os_listdir formatted_output_path) ;;
      match names with
      | [] => lw (log_msg ("No expanded files in " ++ formatted_output_path)) ;;;
              ret (mkPacket PNone)
      | _ :: _ =>
          names' <- lw (os_listdir formatted_output_path) ;;
          lw (log_msg ("Expanded into " ++ formatted_output_path ++ " OK")) ;;;
          ret (mkPacket (PStr formatted_output_path))
      end
  end.

Definition AE_after_chain_invoke (cfg : ArchiveExpanderCfg) (p : option packet)
  : st (world * pyval) pyval :=
  (if remove_input_file cfg
   then (iaf <- get_input_archive_file ;; lw (AE_remove_file iaf))
   else ret tt) ;;;
  (if clear_target_dir cfg
   then (op <- lift_res (AE_output_path cfg p) ;; lw (wipe_dir op))
   else ret tt) ;;;
  ret (PBool true).

(** [os.makedirs] on a path given as components (existing directories are
    kept); [None] when a component is a regular file. *)
Fixpoint mkdirs (n : node) (p : list string) : option node :=
  match p with
  | [] => match n with
          | Dir _ => Some n
          | File _ => None
          end
  | x :: p' =>
      match n with
      | File _ => None
      | Dir es =>
          let c := match assoc x es with
                   | Some c => c
                   | None => Dir []
                   end in
          match mkdirs c p' with
          | Some c' => Some (Dir (set_entry x (Some c') es))
          | None => None
          end
      end
  end.

(** The path components [ZipFile._extract_member] keeps of a member name:
    empty (a leading ['/'] included), ['.'] and ['..'] components are
    dropped. *)
Definition member_parts (name : string) : list string :=
  filter (fun x => negb (String.eqb x ".") && negb (String.eqb x ".."))
         (split_path name).

(** [ZipFile.extractall]: one member, written below [out] at its sanitised
    path; a name ending in ['/'] is a directory. *)
Definition extract_member (out : string) (m : string * string) : st world unit :=
  fun w =>
    let p := split_path out ++ member_parts (fst m) in
    if ends_with_slash (fst m) then
      match mkdirs (fs w) p with
      | Some n => (Ok tt, set_fs w n)
      | None => (Exc OSError, w)
      end
    else
      match p, mkdirs (fs w) (removelast p) with
      | _ :: _, Some n =>
          match lookup n p with
          | Some (Dir _) => (Exc IOError, w)
          | _ => (Ok tt, set_fs w (upd n p (fun _ => Some (File (snd m)))))
          end
      | _, _ => (Exc OSError, w)
      end.

Fixpoint extract_members (out : string) (ms : list (string * string)) : st world unit :=
  match ms with
  | [] => ret tt
  | m :: ms' => extract_member out m ;;; extract_members out ms'
  end.

Section ZipArchiveLibrary.
Variable unzip : string -> option (list (string * string)).

(** [ZipArchiveExpander.expand_archive]. *)
Definition Zip_expand_archive (_ : ArchiveExpanderCfg) (file_path : pyval)
  (output_path : string) : st world unit :=
  match file_path with
  | PStr fp =>
      if negb (str_endswith (str_lower fp) "zip")
      then log_msg ("No zipfile passed: " ++ fp)
      else (zbytes <- os_read_file fp ;;
            members <- lift_res (match unzip zbytes with
                                 | Some m => Ok m
                                 | None => Exc BadZipFile
                                 end) ;;
            extract_members output_path members)
  | _ => raise AttributeError
  end.

Definition ZipArchiveExpander : ArchiveExpanderCls := mkAECls Zip_expand_archive.
End ZipArchiveLibrary.

(** The abstract base class [ArchiveExpander] itself. *)
Definition ArchiveExpander : ArchiveExpanderCls :=
  mkAECls (fun _ _ _ => log_msg "Only classes derived from ArchiveExpander can be used!").

(** ** The ETL driver (etl.py) *)

(** A [ConfigParser] store: the [DEFAULT] section and the named sections,
    each an association list from option name to raw value. *)
Record cstore := mkStore {
  cs_defaults : list (string * string);
  cs_sections : list (string * list (string * string))
}.

Definition cp_empty : cstore := mkStore [] [].

(** [str.split(',')]. *)
Fixpoint split_sep_acc (sep : ascii) (s cur : string) : list string :=
  match s with
  | EmptyString => [cur]
  | String c s' =>
      if Ascii.eqb c sep then cur :: split_sep_acc sep s' ""
      else split_sep_acc sep s' (cur ++ String c "")
  end.

Definition py_split (sep : ascii) (s : string) : list string := split_sep_acc sep s "".

(** [str.strip()]: ASCII whitespace at both ends. *)
Definition is_ws (c : ascii) : bool :=
  let n := nat_of_ascii c in
  Nat.eqb n 32 || ((9 <=? n) && (n <=? 13))%nat.

Fixpoint lstrip (s : string) : string :=
  match s with
  | EmptyString => EmptyString
  | String c s' => if is_ws c then lstrip s' else s
  end.

Fixpoint str_rev (s : string) : string :=
  match s with
  | EmptyString => EmptyString
  | String c s' => (str_rev s' ++ String c "")%string
  end.

Definition py_strip (s : string) : string := str_rev (lstrip (str_rev (lstrip s))).

(** [ETL] instance: its [configdict]. *)
Record ETL := mkETL { configdict : cstore }.

(** [Chain(chain_str, configdict)] (setl.chain). *)
Record Chain := mkChain { chain_str : string; chain_config : cstore }.

Section ETLDriver.
(** Library behaviour taken as given:
    [str.format] applied to the args, [ConfigParser._read] (it fills the store it is
    given and may end with a parsing error, keeping what it parsed), and
    [ConfigParser._interpolate] (section, option, raw value). *)
Variable str_format : string -> list string -> res string.
Variable cp_parse : string -> cstore -> option exn * cstore.
Variable cp_interpolate : cstore -> string -> string -> string -> res string.
(** [Chain.assemble()] and [Chain.run()] (setl.chain). *)
Variable Chain_assemble : Chain -> st world unit.
Variable Chain_run : Chain -> st world unit.

(** [ConfigParser.readfp] / [_read] on the store being built. *)
Definition cp_readfp (config_str : string) : st (world * cstore) unit :=
  fun s => let '(oe, cfg') := cp_parse config_str (snd s) in
           (match oe with
            | None => Ok tt
            | Some e => Exc e
            end, (fst s, cfg')).

(** [ConfigParser.read(filename)]: a file that cannot be opened is
    skipped ([except IOError: continue]). *)
Definition cp_read (filename : string) : st (world * cstore) unit :=
  fun s => match os_read_file filename (fst s) with
           | (Ok c, w') => cp_readfp c (w', snd s)
           | (Exc IOError, w') => (Ok tt, (w', snd s))
           | (Exc e, w') => (Exc e, (w', snd s))
           end.

(** [ConfigParser.get(section, option)]. *)
Definition cp_get (cfg : cstore) (section option : string) : res string :=
  let sectiondict :=
    match assoc section (cs_sections cfg) with
    | Some d => Ok d
    | None => if String.eqb section "DEFAULT" then Ok [] else Exc NoSectionError
    end in
  res_bind sectiondict (fun d =>
    let opt := str_lower option in
    match assoc opt d with
    | Some v => cp_interpolate cfg section opt v
    | None => match assoc opt (cs_defaults cfg) with
              | Some v => cp_interpolate cfg section opt v
              | None => Exc NoOptionError
              end
    end).

(** The body of the [try] block of [ETL.__init__]. *)
Definition ETL_init_body (config_file : string) (args : list string)
  : st (world * cstore) unit :=
  match args with
  | _ :: _ =>
      config_str <- lw (os_read_file config_file) ;;
      config_str' <- lift_res (str_format config_str args) ;;
      cp_readfp config_str'
  | [] => cp_read config_file
  end.

(** [ETL.__init__(options, args)]; [args = None] is the empty list. *)
Definition ETL_init (config_file : string) (args : list string) : st world ETL :=
  log_msg ("config_file = " ++ config_file) ;;;
  fun w =>
    let '(r, s') :=
      try_except (ETL_init_body config_file args)
                 (fun _ => lw (log_msg ("Cannot read config file: " ++ config_file)))
                 (w, cp_empty) in
    match r with
    | Ok _ => (Ok (mkETL (snd s')), fst s')
    | Exc e => (Exc e, fst s')
    end.

(** The [for chain_str in chains_str_arr] loop. *)
Fixpoint ETL_run_loop (configdict : cstore) (chains_str_arr : list string)
  : st world unit :=
  match chains_str_arr with
  | [] => ret tt
  | chain_str :: rest =>
      let chain := mkChain (py_strip chain_str) configdict in
      Chain_assemble chain ;;;
      Chain_run chain ;;;
      ETL_run_loop configdict rest
  end.

Definition ETL_run (self : ETL) : st world unit :=
  log_msg "START" ;;;
  chains_str <- lift_res (cp_get (configdict self) "etl" "chains") ;;
  if String.eqb chains_str "" then raise ValueError
  else (ETL_run_loop (configdict self) (py_split ","%char chains_str) ;;;
        log_msg "ALL DONE").
End ETLDriver.

(** ** Definitions used by the statements *)

(** Characters [safe_filename] may produce: letters, digits, dots, underscores. *)
Definition letter_digit_dot_underscore (c : ascii) : bool :=
  in_safe_class c || Ascii.eqb c "_"%char.

Fixpoint str_forall (f : ascii -> bool) (s : string) : bool :=
  match s with
  | EmptyString => true
  | String c s' => f c && str_forall f s'
  end.

Fixpoint no_slash (s : string) : bool :=
  match s with
  | EmptyString => true
  | String c s' => negb (Ascii.eqb c slash) && no_slash s'
  end.

(** A directory entry name as [os.listdir] returns it. *)
Definition valid_name (x : string) : bool := negb (String.eqb x "") && no_slash x.

Fixpoint names_nodup (l : list string) : bool :=
  match l with
  | [] => true
  | x :: l' => negb (existsb (String.eqb x) l') && names_nodup l'
  end.

Definition is_file_entry (e : string * node) : bool :=
  match snd e with
  | File _ => true
  | Dir _ => false
  end.

(** A directory listing holding regular files only, under distinct valid names. *)
Definition plain_files (es : list (string * node)) : bool :=
  forallb is_file_entry es && forallb valid_name (map fst es) && names_nodup (map fst es).

(** Every open VSI handle id was allocated before [next_handle]. *)
Definition wf_handles (w : world) : bool :=
  forallb (fun e => Nat.ltb (fst e) (next_handle w)) (handles w).

Definition empty_world (n : node) : world := mkWorld n [] [] 0 [] [].

Section DriverSpec.
Variable Chain_assemble : Chain -> st world unit.
Variable Chain_run : Chain -> st world unit.

(** The chains named by a [chains] value: one per comma-separated entry,
    whitespace-stripped, in listed order. *)
Definition chains_of (cfg : cstore) (v : string) : list Chain :=
  map (fun e => mkChain (py_strip e) cfg) (py_split ","%char v).

(** Assemble and run each chain to completion before the next one. *)
Definition run_in_order (cs : list Chain) (k : st world unit) : st world unit :=
  fold_right (fun c rest => Chain_assemble c ;;; Chain_run c ;;; rest) k cs.
End DriverSpec.

(** Template text holding no ['%'] conversion. *)
Definition no_percent (s : string) : bool :=
  str_forall (fun c => negb (Ascii.eqb c "%"%char)) s.

(** The number of occurrences of [c] in [s]. *)
Fixpoint count_char (c : ascii) (s : string) : nat :=
  match s with
  | EmptyString => 0
  | String d s' => (if Ascii.eqb c d then 1 else 0) + count_char c s'
  end.

(** A member name that [extractall] writes as one entry of the output
    directory: a single component, neither ['.'] nor ['..']. *)
Definition plain_member_name (x : string) : bool :=
  valid_name x && negb (String.eqb x ".") && negb (String.eqb x "..").

(** A directory entry that is not a subdirectory (or no entry at all). *)
Definition not_dir (o : option node) : bool :=
  match o with
  | Some (Dir _) => false
  | _ => true
  end.

(** ** Sample inputs *)

(** A zip library that knows one archive, holding member [x.gml]. *)
Definition sample_unzip (b : string) : option (list (string * string)) :=
  if String.eqb b "ZIPBYTES" then Some [("x.gml", "<gml/>")] else None.

Definition sample_zip_cfg : FileExtractorCfg := mkFECfg "out.gml" true 4.

Definition sample_zip_packet : packet :=
  mkPacket (PDict [("file_path", PStr "in.zip"); ("name", PStr "x.gml")]).

(** The archive next to a stale output file. *)
Definition sample_zip_world : world :=
  empty_world (Dir [("in.zip", File "ZIPBYTES"); ("out.gml", File "old")]).

Definition sample_plain_files : list (string * node) :=
  [("a.gml", File "1"); ("b.gml", File "2")].

Definition sample_wipe_world : world :=
  empty_world (Dir [("d", Dir sample_plain_files)]).

(** A GDAL virtual file next to an empty working directory. *)
Definition sample_vsi_world : world :=
  mkWorld (Dir []) [("/vsizip/a.zip/x.gml", "abcdef")] [] 0 [] [].

Definition sample_vsi_packet : packet := mkPacket (PStr "/vsizip/a.zip/x.gml").

(** An output path below a directory that does not exist. *)
Definition sample_vsi_bad_cfg : FileExtractorCfg := mkFECfg "nodir/out.gml" true 4.

(** A zip archive next to an existing, empty output directory. *)
Definition sample_expand_world : world :=
  empty_world (Dir [("in.zip", File "ZIPBYTES"); ("out", Dir [])]).

(** * Properties *)

(** ** Monad and state helpers *)

Lemma set_fs_same : forall w, set_fs w (fs w) = w.
Proof. intros []; reflexivity. Qed.

(** ** safe_filename *)

(** C9: [safe_filename] keeps the length, produces only letters, digits,
    dots and underscores, and is idempotent. *)
Theorem safe_filename_closed_idempotent : forall s,
  String.length (safe_filename s) = String.length s /\
  str_forall letter_digit_dot_underscore (safe_filename s) = true /\
  safe_filename (safe_filename s) = safe_filename s.
Proof.
  induction s as [|c s [Hlen [Hall Hid]]]; [repeat split|].
  cbn [safe_filename str_forall String.length].
  rewrite Hlen, Hall, andb_true_r.
  unfold letter_digit_dot_underscore.
  destruct (in_safe_class c) eqn:Hc; cbn [safe_filename].
  - rewrite Hc, Hid. repeat split.
  - rewrite Hid. repeat split.
Qed.

(** ** Skip packets *)

(** C3: a packet whose [data] is [None] is returned as it is by both
    [ArchiveExpander.invoke] and [FileExtractor.invoke]; only the log line
    is written: no file system, handle or attribute change. *)
Theorem invoke_skip_passthrough : forall pk,
  data pk = PNone ->
  (forall C cfg w, FE_invoke C cfg pk w = (Ok pk, add_log w "Input data is empty")) /\
  (forall C cfg w iaf,
     AE_invoke C cfg pk (w, iaf) = (Ok pk, (add_log w "Input data is empty", iaf))).
Proof.
  intros pk H; split; intros; unfold FE_invoke, AE_invoke; rewrite H; reflexivity.
Qed.

(** ** after_chain_invoke of a FileExtractor *)

(** C2 (code defect): with [delete_file] false, [after_chain_invoke]
    leaves by the bare [return] and gives [None], not a boolean. *)
Theorem FE_after_chain_invoke_no_delete_returns_None : forall C fp bs p w,
  FE_after_chain_invoke C (mkFECfg fp false bs) p w = (Ok PNone, w).
Proof. reflexivity. Qed.

(** C4 (counterexample): a [ZipFileExtractor] with [delete_file] true and a
    dynamic ['%s'] path raises [AttributeError] on the [None] packet. *)
Lemma Zip_after_chain_invoke_None_raises :
  FE_after_chain_invoke (ZipFileExtractor (fun _ => None))
    (mkFECfg "out_%s.gml" true DEFAULT_BUFFER_SIZE) None (empty_world (Dir []))
  = (Exc AttributeError, empty_world (Dir [])).
Proof. reflexivity. Qed.

(** C4 (amended): with [delete_file] true and the [None] packet, the base
    [FileExtractor] (whose [output_path] ignores the packet) deletes the
    file at [file_path] when there is one and returns [True]; with a
    dynamic ['%s'] [file_path], whose output path cannot be rebuilt from a
    [None] packet (as the comment in [after_chain_invoke] says), the
    [ZipFileExtractor] and the [VsiFileExtractor] raise [AttributeError].
    A static [file_path] of these two classes is left out. *)
Theorem FE_after_chain_invoke_None_packet :
  (forall fp bs w,
     FE_after_chain_invoke FileExtractor (mkFECfg fp true bs) None w =
     (Ok (PBool true),
      if node_isfile (fs w) fp then set_fs w (node_remove (fs w) fp) else w)) /\
  (forall unzip fp bs w,
     str_contains "%s" fp = true ->
     fst (FE_after_chain_invoke (ZipFileExtractor unzip) (mkFECfg fp true bs) None w)
     = Exc AttributeError) /\
  (forall fp bs w,
     str_contains "%s" fp = true ->
     fst (FE_after_chain_invoke VsiFileExtractor (mkFECfg fp true bs) None w)
     = Exc AttributeError).
Proof.
  repeat split; intros; try reflexivity.
  unfold FE_after_chain_invoke, FE_delete_target_file, bind, ret, lift_res,
    os_path_isfile, os_remove; simpl.
  destruct (node_isfile (fs w) fp) eqn:E; simpl; rewrite ?E; reflexivity.
Qed.

(** ** Paths *)

Lemma str_app_nil_r : forall s, (s ++ "")%string = s.
Proof. induction s; simpl; congruence. Qed.

Lemma str_app_assoc : forall a b c, ((a ++ b) ++ c)%string = (a ++ (b ++ c))%string.
Proof. induction a; intros; simpl; congruence. Qed.

Lemma split_acc_app_slash : forall s t cur,
  split_acc (s ++ String slash t) cur = split_acc s cur ++ split_acc t "".
Proof.
  induction s as [|c s IH]; intros t cur.
  - reflexivity.
  - simpl. destruct (Ascii.eqb c slash).
    + rewrite IH, app_assoc. reflexivity.
    + apply IH.
Qed.

Lemma split_acc_no_slash : forall x cur,
  no_slash x = true ->
  split_acc x cur = if String.eqb (cur ++ x) "" then [] else [(cur ++ x)%string].
Proof.
  induction x as [|c x IH]; intros cur H.
  - simpl. rewrite str_app_nil_r. reflexivity.
  - simpl in H. apply andb_prop in H as [Hc Hx].
    apply negb_true_iff in Hc. simpl. rewrite Hc, IH by exact Hx.
    rewrite str_app_assoc. reflexivity.
Qed.

Lemma split_path_valid_name : forall x, valid_name x = true -> split_path x = [x].
Proof.
  intros x H. unfold valid_name in H. apply andb_prop in H as [Hne Hx].
  unfold split_path. rewrite split_acc_no_slash by exact Hx. simpl.
  apply negb_true_iff in Hne. rewrite Hne. reflexivity.
Qed.

Lemma ends_with_slash_inv : forall a,
  ends_with_slash a = true -> exists a', a = (a' ++ String slash "")%string.
Proof.
  induction a as [|c a IH]; intros H.
  - discriminate.
  - destruct a as [|c' a'].
    + exists ""%string. simpl in H. apply Ascii.eqb_eq in H. subst. reflexivity.
    + destruct (IH H) as [a0 E]. exists (String c a0). simpl. rewrite <- E. reflexivity.
Qed.

Lemma split_path_join : forall a x,
  valid_name x = true -> split_path (py_join a x) = split_path a ++ [x].
Proof.
  intros a x Hx.
  assert (Hs : starts_with_slash x = false).
  { unfold valid_name in Hx. apply andb_prop in Hx as [_ Hx].
    destruct x as [|c x]; [reflexivity|]. simpl in Hx |- *.
    apply andb_prop in Hx as [Hc _]. apply negb_true_iff in Hc. exact Hc. }
  unfold py_join. rewrite Hs.
  destruct (String.eqb a "") eqn:Ha.
  - apply String.eqb_eq in Ha. subst. apply split_path_valid_name, Hx.
  - destruct (ends_with_slash a) eqn:He.
    + destruct (ends_with_slash_inv a He) as [a' ->].
      unfold split_path. rewrite str_app_assoc. simpl.
      rewrite !split_acc_app_slash. simpl.
      rewrite app_nil_r. f_equal. apply split_path_valid_name, Hx.
    + unfold split_path. change ("/" ++ x)%string with (String slash x).
      rewrite split_acc_app_slash. f_equal. apply split_path_valid_name, Hx.
Qed.

(** ** The file system tree *)

Lemma lookup_app : forall P Q n,
  lookup n (P ++ Q) = match lookup n P with
                      | Some m => lookup m Q
                      | None => None
                      end.
Proof.
  induction P as [|x P IH]; intros Q n; [reflexivity|].
  simpl. destruct n as [c|es]; [reflexivity|].
  destruct (assoc x es); [apply IH|reflexivity].
Qed.

Lemma assoc_filter_self : forall {A} x (es : list (string * A)),
  assoc x (filter (fun e => negb (String.eqb x (fst e))) es) = None.
Proof.
  induction es as [|[y a] es IH]; [reflexivity|]. simpl.
  destruct (String.eqb x y) eqn:E; simpl; [exact IH|]. rewrite E. exact IH.
Qed.

Lemma assoc_map_replace : forall x (v : node) es a,
  assoc x es = Some a ->
  assoc x (map (fun e => if String.eqb x (fst e) then (x, v) else e) es) = Some v.
Proof.
  induction es as [|[y b] es IH]; intros a H; [discriminate|]. simpl in *.
  destruct (String.eqb x y) eqn:E; simpl.
  - rewrite String.eqb_refl. reflexivity.
  - rewrite E. eapply IH, H.
Qed.

Lemma lookup_upd_parent : forall P x f n es,
  lookup n P = Some (Dir es) ->
  lookup (upd n (P ++ [x]) f) P = Some (Dir (set_entry x (f (assoc x es)) es)).
Proof.
  induction P as [|y P IH]; intros x f n es H.
  - simpl in H. inversion H; subst. reflexivity.
  - simpl in H. destruct n as [c|es0]; [discriminate|].
    destruct (assoc y es0) as [c|] eqn:Ey; [|discriminate].
    simpl app. destruct (P ++ [x]) as [|z Z] eqn:E.
    { apply app_eq_nil in E as [_ E]. discriminate. }
    change (upd (Dir es0) (y :: z :: Z) f) with
      (match assoc y es0 with
       | Some c => Dir (set_entry y (Some (upd c (z :: Z) f)) es0)
       | None => Dir es0
       end).
    rewrite Ey, <- E. unfold set_entry. rewrite Ey.
    simpl lookup. erewrite assoc_map_replace by exact Ey.
    apply IH, H.
Qed.

Lemma lookup_upd_remove : forall P n,
  P <> [] -> lookup (upd n P (fun _ => None)) P = None.
Proof.
  induction P as [|x P IH]; intros n HP; [congruence|].
  destruct P as [|y P].
  - destruct n as [c|es]; [reflexivity|]. simpl. unfold set_entry.
    rewrite assoc_filter_self. reflexivity.
  - destruct n as [c|es]; [reflexivity|].
    change (upd (Dir es) (x :: y :: P) (fun _ => None)) with
      (match assoc x es with
       | Some c => Dir (set_entry x (Some (upd c (y :: P) (fun _ => None))) es)
       | None => Dir es
       end).
    destruct (assoc x es) as [c|] eqn:Ex.
    + unfold set_entry. rewrite Ex. simpl lookup.
      erewrite assoc_map_replace by exact Ex. apply IH. discriminate.
    + simpl. rewrite Ex. reflexivity.
Qed.

Lemma isfile_after_remove : forall n p, node_isfile (node_remove n p) p = false.
Proof.
  intros n p. unfold node_isfile, node_read, node_remove.
  destruct (split_path p) as [|x P] eqn:E; [reflexivity|].
  rewrite lookup_upd_remove by discriminate. reflexivity.
Qed.

Lemma node_read_join : forall n p x,
  valid_name x = true ->
  node_read n (py_join p x) =
  match lookup n (split_path p ++ [x]) with
  | Some (File c) => Some c
  | _ => None
  end.
Proof.
  intros n p x Hx. unfold node_read. rewrite split_path_join by exact Hx.
  destruct (split_path p ++ [x]) eqn:E; [|reflexivity].
  apply app_eq_nil in E as [_ E]. discriminate.
Qed.

Lemma filter_fresh_name : forall x (es : list (string * node)),
  existsb (String.eqb x) (map fst es) = false ->
  filter (fun e => negb (String.eqb x (fst e))) es = es.
Proof.
  induction es as [|[y a] es IH]; intros H; [reflexivity|].
  simpl in *. apply orb_false_iff in H as [Hy Hes].
  rewrite Hy. simpl. rewrite IH by exact Hes. reflexivity.
Qed.

(** ** wipe_dir *)

(** The loop of [wipe_dir] over a listing of regular files removes them all. *)
Lemma wipe_dir_loop_plain_files : forall rec p es w,
  lookup (fs w) (split_path p) = Some (Dir es) ->
  plain_files es = true ->
  exists w', wipe_dir_loop rec p (map fst es) w = (Ok tt, w') /\
             lookup (fs w') (split_path p) = Some (Dir []).
Proof.
  intros rec p es. induction es as [|[x nd] es IH]; intros w Hl Hp.
  - exists w. split; [reflexivity|exact Hl].
  - unfold plain_files in Hp. simpl in Hp.
    destruct nd as [c|sub]; [|discriminate]. simpl in Hp.
    apply andb_prop in Hp as [Hp Hnd]. apply andb_prop in Hp as [Hf Hv].
    apply andb_prop in Hv as [Hx Hv]. apply andb_prop in Hnd as [Hfresh Hnd].
    apply negb_true_iff in Hfresh.
    assert (Hchild : lookup (fs w) (split_path p ++ [x]) = Some (File c)).
    { rewrite lookup_app, Hl. simpl. rewrite String.eqb_refl. reflexivity. }
    simpl map. simpl wipe_dir_loop.
    unfold bind, os_path_isdir, node_isdir.
    rewrite split_path_join by exact Hx. rewrite Hchild.
    unfold os_remove, node_isfile. rewrite node_read_join by exact Hx.
    rewrite Hchild.
    apply IH.
    + simpl. unfold node_remove. rewrite split_path_join by exact Hx.
      rewrite (lookup_upd_parent _ _ _ _ _ Hl). simpl.
      rewrite String.eqb_refl. simpl. rewrite filter_fresh_name by exact Hfresh.
      reflexivity.
    + unfold plain_files. rewrite Hf, Hv, Hnd. reflexivity.
Qed.

Lemma wipe_dir_rec_S : forall f dir_path,
  wipe_dir_rec (S f) dir_path =
  (b <- os_path_isdir dir_path ;;
   if b then (names <- os_listdir dir_path ;; wipe_dir_loop (wipe_dir_rec f) dir_path names)
   else ret tt).
Proof. reflexivity. Qed.

(** C10 (code defect): the [return] after the first [os.rmdir] also ends
    the recursive call: when the first subdirectory [d/a] holds a
    subdirectory listed before a file, the recursive call returns after
    the inner subdirectory, [os.rmdir(d/a)] finds it non-empty and raises:
    [d/a] is neither wiped nor removed. *)
Lemma wipe_dir_nested_subdir_raises :
  wipe_dir "d" (empty_world (Dir [("d", Dir [("a", Dir [("b", Dir []); ("c", File "")])])]))
  = (Exc OSError, empty_world (Dir [("d", Dir [("a", Dir [("c", File "")])])])).
Proof. vm_compute. reflexivity. Qed.

(** [wipe_dir] on a path that is not a directory does
    nothing; on a directory whose entries are all regular files it removes
    every one of them, without raising, and leaves the directory empty. *)
Theorem wipe_dir_nondir_or_plain_files :
  (forall p w, node_isdir (fs w) p = false -> wipe_dir p w = (Ok tt, w)) /\
  (forall p w es,
     lookup (fs w) (split_path p) = Some (Dir es) ->
     plain_files es = true ->
     exists w', wipe_dir p w = (Ok tt, w') /\
                lookup (fs w') (split_path p) = Some (Dir [])).
Proof.
  split.
  - intros p w H. unfold wipe_dir, PY_RECURSION_LIMIT. rewrite wipe_dir_rec_S.
    unfold bind, os_path_isdir. rewrite H. reflexivity.
  - intros p w es Hl Hp. unfold wipe_dir, PY_RECURSION_LIMIT. rewrite wipe_dir_rec_S.
    unfold bind, os_path_isdir, node_isdir, os_listdir. rewrite Hl.
    cbv beta match zeta. rewrite Hl. cbv beta match zeta.
    apply wipe_dir_loop_plain_files; assumption.
Qed.

(** ** FileExtractor.invoke *)

(** C5: on a packet with data, [invoke] deletes a file already at
    [output_path(packet)], runs [extract_file], and returns the packet
    with [data = output_path(packet)] when a file is there afterwards and
    [data = None] otherwise. *)
Theorem FE_invoke_postcondition : forall C cfg pk w pk' w',
  data pk <> PNone ->
  FE_invoke C cfg pk w = (Ok pk', w') ->
  exists op w1 w2,
    output_path C cfg (Some pk) = Ok op /\
    fs w1 = (if node_isfile (fs w) op then node_remove (fs w) op else fs w) /\
    node_isfile (fs w1) op = false /\
    extract_file C cfg (Some pk) w1 = (Ok tt, w2) /\
    fs w' = fs w2 /\
    data pk' = (if node_isfile (fs w2) op then PStr op else PNone).
Proof.
  intros C cfg pk w pk' w' Hd H.
  assert (Hinv : FE_invoke C cfg pk =
    (FE_delete_target_file C cfg (Some pk) ;;;
     extract_file C cfg (Some pk) ;;;
     op <- lift_res (output_path C cfg (Some pk)) ;;
     b <- os_path_isfile op ;;
     if b then ret (mkPacket (PStr op))
     else (log_msg ("Extracted file " ++ op ++ " does not exist") ;;; ret (mkPacket PNone)))).
  { unfold FE_invoke. destruct (data pk); [congruence|reflexivity..]. }
  rewrite Hinv in H. clear Hinv.
  unfold FE_delete_target_file, bind, lift_res, os_path_isfile, ret in H.
  destruct (output_path C cfg (Some pk)) as [op|e] eqn:Hop; [|discriminate].
  destruct (node_isfile (fs w) op) eqn:Hf.
  - unfold os_remove in H. rewrite Hf in H.
    destruct (extract_file C cfg (Some pk) (set_fs w (node_remove (fs w) op)))
      as [[[]|e] w2] eqn:Hx; [|discriminate].
    exists op, (set_fs w (node_remove (fs w) op)), w2.
    split; [reflexivity|]. split; [rewrite Hf; reflexivity|].
    split; [apply isfile_after_remove|]. split; [exact Hx|].
    destruct (node_isfile (fs w2) op); inversion H; split; reflexivity.
  - destruct (extract_file C cfg (Some pk) w) as [[[]|e] w2] eqn:Hx; [|discriminate].
    exists op, w, w2.
    split; [reflexivity|]. split; [rewrite Hf; reflexivity|].
    split; [exact Hf|]. split; [exact Hx|].
    destruct (node_isfile (fs w2) op); inversion H; split; reflexivity.
Qed.

(** ** ArchiveExpander.invoke *)

(** The early [return] of [wipe_dir] seen through [invoke]: a target
    directory [out] left with a subdirectory
    [sub] listed before a file [stale.txt]; the packet names [a.txt], which
    [ZipArchiveExpander] does not expand.  [wipe_dir] returns after removing
    [sub], so [stale.txt] survives the wipe, and [invoke] reports [out] as
    holding expanded files. *)
Theorem AE_invoke_stale_target_dir :
  AE_invoke (ZipArchiveExpander (fun _ => None)) (mkAECfg "out" false true)
    (mkPacket (PStr "a.txt"))
    (empty_world (Dir [("out", Dir [("sub", Dir []); ("stale.txt", File "old")])]), PNone)
  = (Ok (mkPacket (PStr "out")),
     (mkWorld (Dir [("out", Dir [("stale.txt", File "old")])]) [] [] 0 []
              ["No zipfile passed: a.txt"; "Expanded into out OK"],
      PStr "a.txt")).
Proof. vm_compute. reflexivity. Qed.

(** C6 (counterexample): [ZipArchiveExpander] chooses by the file name: an
    archive stored as [a.txt] is not expanded, the empty target directory
    stays empty and [invoke] returns [None]. *)
Lemma AE_invoke_zip_under_other_name_not_expanded :
  AE_invoke (ZipArchiveExpander sample_unzip) (mkAECfg "out" false true)
    (mkPacket (PStr "a.txt"))
    (empty_world (Dir [("a.txt", File "ZIPBYTES"); ("out", Dir [])]), PNone)
  = (Ok (mkPacket PNone),
     (mkWorld (Dir [("a.txt", File "ZIPBYTES"); ("out", Dir [])]) [] [] 0 []
              ["No zipfile passed: a.txt"; "No expanded files in out"],
      PStr "a.txt")).
Proof. vm_compute. reflexivity. Qed.

(** C6 (amended): when [invoke] returns normally on a packet with data, it
    has called [wipe_dir] on the formatted output directory, recorded
    [packet.data] as [input_archive_file], called [expand_archive] on it,
    and returns data equal to the directory when the directory lists
    entries afterwards and [None] when it is empty; [ZipArchiveExpander]
    expands only a name ending in "zip" (any case) and for any other name
    only logs a warning. *)
Theorem AE_invoke_postcondition :
  (forall C cfg pk w iaf pk' w' iaf',
     data pk <> PNone ->
     AE_invoke C cfg pk (w, iaf) = (Ok pk', (w', iaf')) ->
     exists op w1 w2 es,
       AE_output_path cfg (Some pk) = Ok op /\
       wipe_dir op w = (Ok tt, w1) /\
       expand_archive C cfg (data pk) op w1 = (Ok tt, w2) /\
       lookup (fs w2) (split_path op) = Some (Dir es) /\
       fs w' = fs w2 /\ iaf' = data pk /\
       data pk' = match es with [] => PNone | _ :: _ => PStr op end) /\
  (forall unzip cfg fp op w,
     str_endswith (str_lower fp) "zip" = false ->
     expand_archive (ZipArchiveExpander unzip) cfg (PStr fp) op w
     = (Ok tt, add_log w ("No zipfile passed: " ++ fp))).
Proof.
  split.
  - intros C cfg pk w iaf pk' w' iaf' Hn H.
    unfold AE_invoke in H.
    destruct (data pk) as [|b|s|kv] eqn:Hd; [congruence| | |];
    unfold bind, lift_res, lw, set_input_archive_file, get_input_archive_file in H;
    cbn [fst snd] in H;
    (destruct (AE_output_path cfg (Some pk)) as [op|e]; [|discriminate]);
    (destruct (wipe_dir op w) as [[[]|e] w1] eqn:Hw; [|discriminate]);
    cbn [fst snd] in H;
    (destruct (expand_archive C cfg _ op w1) as [[[]|e] w2] eqn:He; [|discriminate]);
    unfold os_listdir in H; cbn [fst snd] in H;
    (destruct (lookup (fs w2) (split_path op)) as [[c|es]|] eqn:Hl; try discriminate);
    exists op, w1, w2, es;
    (destruct es; unfold log_msg, ret in H; cbn [fst snd map] in H;
     try (rewrite Hl in H; cbn [fst snd map] in H);
     inversion H; subst; repeat split; assumption || reflexivity).
  - intros unzip cfg fp op w Hz. cbn [expand_archive ZipArchiveExpander].
    unfold Zip_expand_archive. rewrite Hz. reflexivity.
Qed.

(** ** VsiFileExtractor.extract_file *)

Section VsiHandles.
(** The handle table on entry. *)
Variable hs0 : list (nat * vsi_handle).

(** Handles as they may be while [extract_file] runs, [v] being the value
    of its local [vsi]: unchanged, or with the one handle it opened
    (fresh, hence absent from [hs0]) on top. *)
Definition handles_ok (v : option nat) (w : world) : Prop :=
  match v with
  | None => handles w = hs0
  | Some h => (exists hd, handles w = (h, hd) :: hs0) /\ ~ In h (map fst hs0)
  end.

Definition pres {A} (v : option nat) (m : st world A) : Prop :=
  forall w, handles_ok v w -> handles_ok v (snd (m w)).

Definition inv_at (v : option nat) (s : world * vsi_locals) : Prop :=
  l_vsi (snd s) = v /\ handles_ok v (fst s).

Definition presV {A} (v : option nat) (m : st (world * vsi_locals) A) : Prop :=
  forall s, inv_at v s -> inv_at v (snd (m s)).

Lemma pres_bind : forall {A B} v (m : st world A) (k : A -> st world B),
  pres v m -> (forall a, pres v (k a)) -> pres v (bind m k).
Proof.
  intros A B v m k Hm Hk w Hw. unfold bind.
  specialize (Hm w Hw). destruct (m w) as [[a|e] w'].
  - apply Hk, Hm.
  - exact Hm.
Qed.

Lemma presV_bind : forall {A B} v (m : st (world * vsi_locals) A) (k : A -> _ B),
  presV v m -> (forall a, presV v (k a)) -> presV v (bind m k).
Proof.
  intros A B v m k Hm Hk s Hs. unfold bind.
  specialize (Hm s Hs). destruct (m s) as [[a|e] s'].
  - apply Hk, Hm.
  - exact Hm.
Qed.

Lemma pres_same_handles : forall {A} v (m : st world A),
  (forall w, handles (snd (m w)) = handles w) -> pres v m.
Proof.
  intros A v m H w Hw. unfold handles_ok in *. rewrite H. exact Hw.
Qed.

Lemma presV_lw : forall {A} v (m : st world A), pres v m -> presV v (lw m).
Proof.
  intros A v m H [w l] [Hl Hw]. unfold lw. simpl in *.
  specialize (H w Hw). destruct (m w) as [r w']. split; assumption.
Qed.

Lemma hupdate_fresh : forall h x hs,
  ~ In h (map fst hs) -> hupdate h x hs = hs.
Proof.
  induction hs as [|[h' a] hs IH]; intros Hn; [reflexivity|].
  simpl in *. destruct (Nat.eqb h h') eqn:E.
  - apply Nat.eqb_eq in E. subst. tauto.
  - f_equal. apply IH. tauto.
Qed.

Lemma hremove_fresh : forall h hs, ~ In h (map fst hs) -> hremove h hs = hs.
Proof.
  induction hs as [|[h' a] hs IH]; intros Hn; [reflexivity|].
  simpl in *. destruct (Nat.eqb h h') eqn:E.
  - apply Nat.eqb_eq in E. subst. tauto.
  - simpl. f_equal. apply IH. tauto.
Qed.

Lemma set_pos_ok : forall h hd pos w,
  handles_ok (Some h) w -> handles_ok (Some h) (snd (set_pos h hd pos w)).
Proof.
  intros h hd pos w [[hd0 E] Hn]. split; [|exact Hn].
  exists (mkHandle (vh_path hd) pos). simpl. rewrite E. simpl.
  rewrite Nat.eqb_refl, hupdate_fresh by exact Hn. reflexivity.
Qed.

Lemma pres_with_handle : forall {A} v (k : nat -> vsi_handle -> st world A),
  (forall h hd w, v = Some h -> handles_ok v w -> handles_ok v (snd (k h hd w))) ->
  pres v (with_handle v k).
Proof.
  intros A v k Hk w Hw. destruct v as [h|]; [|exact Hw].
  simpl. destruct (hlookup h (handles w)) as [hd|]; [|exact Hw].
  apply Hk; auto.
Qed.

Lemma pres_may_fail : forall v e, pres v (may_fail e).
Proof.
  intros v e. apply pres_same_handles. intros w. unfold may_fail.
  destruct (faults w) as [|[] fl]; reflexivity.
Qed.

Lemma pres_VSIFSeekL : forall v off wh, pres v (VSIFSeekL v off wh).
Proof.
  intros v off wh. unfold VSIFSeekL. apply pres_bind; [apply pres_may_fail|].
  intros _. apply pres_with_handle. intros h hd w -> Hw. apply set_pos_ok, Hw.
Qed.

Lemma pres_VSIFTellL : forall v, pres v (VSIFTellL v).
Proof.
  intros v. unfold VSIFTellL. apply pres_bind; [apply pres_may_fail|].
  intros _. apply pres_with_handle. intros h hd w _ Hw. exact Hw.
Qed.

Lemma pres_VSIFReadL : forall v size, pres v (VSIFReadL size v).
Proof.
  intros v size. unfold VSIFReadL. apply pres_bind; [apply pres_may_fail|].
  intros _. apply pres_with_handle. intros h hd w -> Hw. apply set_pos_ok, Hw.
Qed.

Lemma pres_os_write : forall v p buf, pres v (os_write p buf).
Proof.
  intros v p buf. unfold os_write. apply pres_bind; [apply pres_may_fail|].
  intros _. apply pres_same_handles. reflexivity.
Qed.

Lemma pres_os_open_write : forall v p, pres v (os_open_write p).
Proof.
  intros v p. apply pres_same_handles. intros w. unfold os_open_write.
  destruct (split_path p) as [|x l]; [reflexivity|].
  destruct (lookup (fs w) (removelast (x :: l))) as [[]|];
    destruct (lookup (fs w) (x :: l)) as [[]|]; reflexivity.
Qed.

Lemma pres_log_msg : forall v msg, pres v (log_msg msg).
Proof. intros. apply pres_same_handles. reflexivity. Qed.

Lemma pres_lift_res : forall {A} v (r : res A), pres v (lift_res r).
Proof. intros. apply pres_same_handles. reflexivity. Qed.

Lemma pres_ret : forall {A} v (a : A), pres v (ret a).
Proof. intros. apply pres_same_handles. reflexivity. Qed.

Lemma pres_vsi_copy_loop : forall v op rs fuel, pres v (vsi_copy_loop v op rs fuel).
Proof.
  intros v op rs fuel. induction fuel as [|f IH]; simpl; [apply pres_ret|].
  apply pres_bind; [apply pres_VSIFReadL|]. intros buf.
  destruct (String.eqb buf ""); [apply pres_ret|].
  apply pres_bind; [apply pres_os_write|]. intros _. exact IH.
Qed.

Lemma presV_set_vsi_len : forall v n, presV v (set_vsi_len n).
Proof. intros v n [w l] [Hl Hw]. split; assumption. Qed.
End VsiHandles.

Ltac pres_step :=
  first [ apply pres_VSIFSeekL
        | apply pres_VSIFTellL
        | apply pres_vsi_copy_loop
        | apply pres_log_msg
        | apply pres_lift_res
        | apply pres_os_open_write
        | apply pres_ret
        | apply presV_set_vsi_len
        | apply presV_lw
        | apply presV_bind; [|intros]
        | apply pres_bind; [|intros] ].

Lemma wf_handles_fresh : forall w,
  wf_handles w = true -> ~ In (next_handle w) (map fst (handles w)).
Proof.
  intros w H Hin. unfold wf_handles in H. rewrite forallb_forall in H.
  apply in_map_iff in Hin as [[h a] [Eh Hin]]. simpl in Eh. subst.
  specialize (H _ Hin). simpl in H. apply Nat.ltb_lt in H. lia.
Qed.

Lemma bind_lw_log : forall {B} msg (k : st (world * vsi_locals) B) w l,
  (lw (log_msg msg) ;;; k) (w, l) = k (add_log w msg, l).
Proof. reflexivity. Qed.

(** Opening the VSI file and recording it in the local [vsi]. *)
Lemma open_step : forall hs0 path (k : option nat -> st (world * vsi_locals) unit) w l,
  l_vsi l = None -> handles w = hs0 -> ~ In (next_handle w) (map fst hs0) ->
  (forall v, presV hs0 v (k v)) ->
  exists v, inv_at hs0 v (snd ((v <- lw (VSIFOpenL path) ;; set_vsi v ;;; k v) (w, l))).
Proof.
  intros hs0 path k w l Hl Hh Hfresh Hk.
  unfold bind, lw, set_vsi. simpl.
  destruct path as [| |s|]; try (exists None; split; [exact Hl|exact Hh]).
  unfold VSIFOpenL, bind, may_fail.
  destruct (faults w) as [|[] fl].
  - destruct (assoc s (vsi_files w)) as [c|]; simpl.
    + exists (Some (next_handle w)).
      match goal with |- inv_at _ _ (snd (k ?v ?s)) => apply (Hk v s) end.
      split; [reflexivity|]. split; [|exact Hfresh].
      eexists. simpl. rewrite Hh. reflexivity.
    + exists None. match goal with |- inv_at _ _ (snd (k ?v ?s)) => apply (Hk v s) end.
      split; [reflexivity|exact Hh].
  - exists None. split; [exact Hl|exact Hh].
  - destruct (assoc s (vsi_files (set_faults w fl))) as [c|]; simpl.
    + exists (Some (next_handle w)).
      match goal with |- inv_at _ _ (snd (k ?v ?s)) => apply (Hk v s) end.
      split; [reflexivity|]. split; [|exact Hfresh].
      eexists. simpl. rewrite Hh. reflexivity.
    + exists None. match goal with |- inv_at _ _ (snd (k ?v ?s)) => apply (Hk v s) end.
      split; [reflexivity|exact Hh].
Qed.

Lemma Vsi_extract_body_inv : forall cfg p path w,
  wf_handles w = true ->
  exists v, inv_at (handles w) v (snd (Vsi_extract_body cfg p path (w, mkLocals None 0%Z))).
Proof.
  intros cfg p path w Hwf. unfold Vsi_extract_body. rewrite bind_lw_log.
  apply open_step; [reflexivity|reflexivity|exact (wf_handles_fresh w Hwf)|].
  intros v. repeat pres_step.
Qed.

Lemma Vsi_extract_finally_closes : forall hs0 path v s,
  inv_at hs0 v s ->
  exists s', Vsi_extract_finally path s = (Ok tt, s') /\ handles (fst s') = hs0.
Proof.
  intros hs0 path v [w l] [Hl Hw]. simpl in Hl, Hw. unfold Vsi_extract_finally. simpl.
  rewrite Hl. destruct v as [h|].
  - destruct Hw as [[hd E] Hn]. eexists. split; [reflexivity|].
    simpl. rewrite E. simpl. rewrite Nat.eqb_refl. simpl. apply hremove_fresh, Hn.
  - eexists. split; [reflexivity|]. exact Hw.
Qed.

(** C7: [VsiFileExtractor.extract_file] re-raises the exception its [try]
    block raised, the VSI handle it opened is closed on every exit (the
    handle table ends as it started), and [invoke] passes the exception on
    to its caller. *)
Theorem Vsi_extract_file_reraises_and_closes : forall cfg pk w,
  wf_handles w = true ->
  handles (snd (Vsi_extract_file cfg (Some pk) w)) = handles w /\
  (forall e s1,
     Vsi_extract_body cfg (Some pk) (data pk) (w, mkLocals None 0%Z) = (Exc e, s1) ->
     fst (Vsi_extract_file cfg (Some pk) w) = Exc e) /\
  (forall w0 e,
     data pk <> PNone ->
     FE_delete_target_file VsiFileExtractor cfg (Some pk) w0 = (Ok tt, w) ->
     fst (Vsi_extract_file cfg (Some pk) w) = Exc e ->
     FE_invoke VsiFileExtractor cfg pk w0 = (Exc e, snd (Vsi_extract_file cfg (Some pk) w))).
Proof.
  intros cfg pk w Hwf.
  destruct (Vsi_extract_body_inv cfg (Some pk) (data pk) w Hwf) as [v Hinv].
  assert (Hfile : Vsi_extract_file cfg (Some pk) w =
    (let '(r, s') := try_finally
        (try_except (Vsi_extract_body cfg (Some pk) (data pk))
                    (Vsi_extract_handler (data pk)))
        (Vsi_extract_finally (data pk)) (w, mkLocals None 0%Z) in (r, fst s'))).
  { reflexivity. }
  unfold try_finally, try_except in Hfile.
  destruct (Vsi_extract_body cfg (Some pk) (data pk) (w, mkLocals None 0%Z))
    as [[[]|e] s1] eqn:Hb; simpl in Hinv.
  - destruct (Vsi_extract_finally_closes _ (data pk) v s1 Hinv) as [s2 [Hf Hh]].
    rewrite Hf in Hfile. rewrite Hfile. split; [exact Hh|]. split.
    + intros e s E. discriminate.
    + intros w0 e _ _ H. simpl in H. discriminate.
  - assert (Hinv' : inv_at (handles w) v
                      (snd (Vsi_extract_handler (data pk) e s1))).
    { destruct s1 as [w1 l1]. destruct Hinv as [Hl Hw]. split; [exact Hl|exact Hw]. }
    destruct (Vsi_extract_finally_closes _ (data pk) v _ Hinv') as [s2 [Hf Hh]].
    assert (He : fst (Vsi_extract_handler (data pk) e s1) = Exc e).
    { destruct s1; reflexivity. }
    destruct (Vsi_extract_handler (data pk) e s1) as [r2 s2'] eqn:Hh2.
    simpl in Hf, He. subst r2. rewrite Hf in Hfile. rewrite Hfile.
    split; [exact Hh|]. split.
    + intros e' s E. inversion E. reflexivity.
    + intros w0 e' Hd Hdel He'. simpl in He'. inversion He'; subst e'.
      assert (Hinv0 : FE_invoke VsiFileExtractor cfg pk =
        (FE_delete_target_file VsiFileExtractor cfg (Some pk) ;;;
         extract_file VsiFileExtractor cfg (Some pk) ;;;
         op <- lift_res (output_path VsiFileExtractor cfg (Some pk)) ;;
         b <- os_path_isfile op ;;
         if b then ret (mkPacket (PStr op))
         else (log_msg ("Extracted file " ++ op ++ " does not exist") ;;;
               ret (mkPacket PNone)))).
      { unfold FE_invoke. destruct (data pk); [congruence|reflexivity..]. }
      rewrite Hinv0. unfold bind at 1. rewrite Hdel.
      unfold bind at 1. simpl extract_file. rewrite Hfile. reflexivity.
Qed.

(** ** ETL driver *)

(** C1 (counterexample): a configuration file that does not exist (with
    substitution arguments) and one that does not parse (read directly)
    both yield an [ETL] object, with an empty configuration store. *)
Lemma ETL_init_config_errors_not_raised :
  fst (ETL_init (fun s _ => Ok s) (fun _ cfg => (Some ParsingError, cfg))
                "missing.ini" ["x"] (empty_world (Dir [])))
  = Ok (mkETL cp_empty) /\
  fst (ETL_init (fun s _ => Ok s) (fun _ cfg => (Some ParsingError, cfg))
                "etl.ini" [] (empty_world (Dir [("etl.ini", File "no header")])))
  = Ok (mkETL cp_empty).
Proof. split; reflexivity. Qed.

(** C1 (amended): [ETL.__init__] never raises because of its configuration
    file.  Whatever reading, substituting or parsing it raises is caught,
    the warning "Cannot read config file" is logged, and the driver keeps
    the store as filled before the error; a file that cannot be opened
    leaves the store empty. *)
Theorem ETL_init_catches_config_errors : forall str_format cp_parse config_file args w,
  let w1 := add_log w ("config_file = " ++ config_file) in
  match ETL_init_body str_format cp_parse config_file args (w1, cp_empty) with
  | (Ok _, (w2, cfg)) => ETL_init str_format cp_parse config_file args w = (Ok (mkETL cfg), w2)
  | (Exc _, (w2, cfg)) =>
      ETL_init str_format cp_parse config_file args w =
      (Ok (mkETL cfg), add_log w2 ("Cannot read config file: " ++ config_file))
  end /\
  (node_isfile (fs w) config_file = true \/
   fst (ETL_init str_format cp_parse config_file args w) = Ok (mkETL cp_empty)).
Proof.
  intros str_format cp_parse config_file args w w1. split.
  - unfold ETL_init, bind, log_msg, try_except. fold w1.
    destruct (ETL_init_body str_format cp_parse config_file args (w1, cp_empty))
      as [[u|e] [w2 cfg]]; reflexivity.
  - destruct (node_isfile (fs w) config_file) eqn:Hf; [left; reflexivity|right].
    assert (Hr : node_read (fs w) config_file = None).
    { unfold node_isfile in Hf. destruct (node_read (fs w) config_file); congruence. }
    unfold ETL_init, bind, log_msg, try_except, ETL_init_body.
    destruct args as [|a args].
    + unfold cp_read, os_read_file. simpl. rewrite Hr. reflexivity.
    + unfold bind, lw, os_read_file. simpl. rewrite Hr. reflexivity.
Qed.

Lemma ETL_run_loop_in_order : forall Chain_assemble Chain_run cfg l w,
  (ETL_run_loop Chain_assemble Chain_run cfg l ;;; log_msg "ALL DONE") w =
  run_in_order Chain_assemble Chain_run (map (fun e => mkChain (py_strip e) cfg) l)
               (log_msg "ALL DONE") w.
Proof.
  intros asm run cfg l. induction l as [|c l IH]; intros w; [reflexivity|].
  unfold run_in_order in *. cbn [ETL_run_loop map fold_right].
  specialize (IH). unfold bind in *.
  destruct (asm (mkChain (py_strip c) cfg) w) as [[[]|e] w1]; [|reflexivity].
  destruct (run (mkChain (py_strip c) cfg) w1) as [[[]|e] w2]; [|reflexivity].
  apply IH.
Qed.

(** C8 (code defect): the guard [if not chains_str: raise ValueError('ETL
    chain entry not defined in section [etl]')] is never reached for a
    missing entry: with no [etl] section [ConfigParser.get] raises
    [NoSectionError] first, and with no [chains] option [NoOptionError];
    the [ValueError] is raised for an empty value only. *)
Lemma ETL_run_missing_chains_not_ValueError :
  fst (ETL_run (fun _ _ _ v => Ok v) (fun _ => ret tt) (fun _ => ret tt)
               (mkETL cp_empty) (empty_world (Dir []))) = Exc NoSectionError /\
  fst (ETL_run (fun _ _ _ v => Ok v) (fun _ => ret tt) (fun _ => ret tt)
               (mkETL (mkStore [] [("etl", [])])) (empty_world (Dir []))) = Exc NoOptionError.
Proof. split; reflexivity. Qed.

(** [ETL.run] reads option [chains] of section [etl] with
    [ConfigParser.get]: no [etl] section raises [NoSectionError], no
    [chains] option (in [etl] or [DEFAULT]) raises [NoOptionError], an
    empty value raises [ValueError]; otherwise, for each comma-separated
    entry in listed order, it builds a [Chain] of the whitespace-stripped
    entry, assembles it and runs it before the next one. *)
Theorem ETL_run_reads_and_runs_chains : forall cp_interpolate Chain_assemble Chain_run self w,
  let cfg := configdict self in
  let w1 := add_log w "START" in
  ETL_run cp_interpolate Chain_assemble Chain_run self w =
  match assoc "etl" (cs_sections cfg) with
  | None => (Exc NoSectionError, w1)
  | Some d =>
      match match assoc "chains" d with
            | Some v => Some v
            | None => assoc "chains" (cs_defaults cfg)
            end with
      | None => (Exc NoOptionError, w1)
      | Some raw =>
          match cp_interpolate cfg "etl" "chains" raw with
          | Exc e => (Exc e, w1)
          | Ok v =>
              if String.eqb v "" then (Exc ValueError, w1)
              else run_in_order Chain_assemble Chain_run (chains_of cfg v)
                                (log_msg "ALL DONE") w1
          end
      end
  end.
Proof.
  intros interp asm run self w cfg w1.
  pose proof (ETL_run_loop_in_order asm run cfg) as L.
  unfold ETL_run, bind, lift_res, cp_get, res_bind, log_msg in *. fold cfg w1.
  change (str_lower "chains") with "chains". cbv beta iota zeta.
  destruct (assoc "etl" (cs_sections cfg)) as [d|]; [|reflexivity].
  cbv beta iota zeta.
  destruct (assoc "chains" d) as [raw|];
    [|destruct (assoc "chains" (cs_defaults cfg)) as [raw|]; [|reflexivity]];
    (destruct (interp cfg "etl" "chains" raw) as [v|e]; [|reflexivity]);
    (destruct (String.eqb v ""); [reflexivity|]); apply L.
Qed.

(** ** Instances of the claims' hypotheses *)

(** C3 at the packet whose data is [None]. *)
Lemma invoke_skip_passthrough_witness :
  data (mkPacket PNone) = PNone /\
  FE_invoke FileExtractor sample_zip_cfg (mkPacket PNone) sample_zip_world
  = (Ok (mkPacket PNone), add_log sample_zip_world "Input data is empty").
Proof.
  split; [reflexivity|].
  apply (proj1 (invoke_skip_passthrough (mkPacket PNone) ltac:(reflexivity))).
Defined.

(** C5 on a zip member extracted over a stale output file. *)
Lemma FE_invoke_postcondition_witness :
  data sample_zip_packet <> PNone /\
  FE_invoke (ZipFileExtractor sample_unzip) sample_zip_cfg sample_zip_packet sample_zip_world
  = (Ok (mkPacket (PStr "out.gml")),
     snd (FE_invoke (ZipFileExtractor sample_unzip) sample_zip_cfg sample_zip_packet
                    sample_zip_world)) /\
  exists op w1 w2,
    output_path (ZipFileExtractor sample_unzip) sample_zip_cfg (Some sample_zip_packet) = Ok op /\
    fs w1 = (if node_isfile (fs sample_zip_world) op
             then node_remove (fs sample_zip_world) op else fs sample_zip_world) /\
    node_isfile (fs w1) op = false /\
    extract_file (ZipFileExtractor sample_unzip) sample_zip_cfg (Some sample_zip_packet) w1
      = (Ok tt, w2) /\
    fs (snd (FE_invoke (ZipFileExtractor sample_unzip) sample_zip_cfg sample_zip_packet
                       sample_zip_world)) = fs w2 /\
    data (mkPacket (PStr "out.gml")) = (if node_isfile (fs w2) op then PStr op else PNone).
Proof.
  split; [discriminate|]. split; [vm_compute; reflexivity|].
  apply (FE_invoke_postcondition (ZipFileExtractor sample_unzip) sample_zip_cfg
           sample_zip_packet sample_zip_world); [discriminate | vm_compute; reflexivity].
Defined.

(** C7 on a VSI file GDAL opens, with an output path whose parent
    directory is missing: [open(..., 'wb')] raises [IOError] after the
    handle was opened; the handler re-raises it, the [finally] clause
    closes the handle, and [invoke] passes the [IOError] on. *)
Lemma Vsi_extract_file_reraises_and_closes_witness :
  wf_handles sample_vsi_world = true /\
  handles (fst (snd (Vsi_extract_body sample_vsi_bad_cfg (Some sample_vsi_packet)
                       (data sample_vsi_packet) (sample_vsi_world, mkLocals None 0%Z))))
  = [(0, mkHandle "/vsizip/a.zip/x.gml" 0)] /\
  fst (Vsi_extract_body sample_vsi_bad_cfg (Some sample_vsi_packet)
         (data sample_vsi_packet) (sample_vsi_world, mkLocals None 0%Z)) = Exc IOError /\
  handles (snd (Vsi_extract_file sample_vsi_bad_cfg (Some sample_vsi_packet) sample_vsi_world))
  = handles sample_vsi_world /\
  fst (Vsi_extract_file sample_vsi_bad_cfg (Some sample_vsi_packet) sample_vsi_world)
  = Exc IOError /\
  FE_invoke VsiFileExtractor sample_vsi_bad_cfg sample_vsi_packet sample_vsi_world
  = (Exc IOError,
     snd (Vsi_extract_file sample_vsi_bad_cfg (Some sample_vsi_packet) sample_vsi_world)).
Proof.
  destruct (Vsi_extract_file_reraises_and_closes sample_vsi_bad_cfg sample_vsi_packet
              sample_vsi_world ltac:(reflexivity)) as [H1 [H2 H3]].
  split; [reflexivity|]. split; [vm_compute; reflexivity|].
  split; [vm_compute; reflexivity|]. split; [exact H1|].
  assert (He : fst (Vsi_extract_file sample_vsi_bad_cfg (Some sample_vsi_packet)
                      sample_vsi_world) = Exc IOError).
  { apply (H2 IOError (snd (Vsi_extract_body sample_vsi_bad_cfg (Some sample_vsi_packet)
                              (data sample_vsi_packet) (sample_vsi_world, mkLocals None 0%Z)))).
    vm_compute. reflexivity. }
  split; [exact He|].
  apply (H3 sample_vsi_world IOError); [discriminate | vm_compute; reflexivity | exact He].
Defined.

(** C4 on a stale output file: the base class removes it; the zip and
    VSI extractors with the path ["out_%s.gml"] raise. *)
Lemma FE_after_chain_invoke_None_packet_witness :
  FE_after_chain_invoke FileExtractor (mkFECfg "out.gml" true 4) None sample_zip_world =
  (Ok (PBool true),
   if node_isfile (fs sample_zip_world) "out.gml"
   then set_fs sample_zip_world (node_remove (fs sample_zip_world) "out.gml")
   else sample_zip_world) /\
  node_isfile (fs sample_zip_world) "out.gml" = true /\
  str_contains "%s" "out_%s.gml" = true /\
  fst (FE_after_chain_invoke (ZipFileExtractor sample_unzip) (mkFECfg "out_%s.gml" true 4)
         None sample_zip_world) = Exc AttributeError /\
  fst (FE_after_chain_invoke VsiFileExtractor (mkFECfg "out_%s.gml" true 4)
         None sample_zip_world) = Exc AttributeError.
Proof.
  destruct FE_after_chain_invoke_None_packet as [H1 [H2 H3]].
  split; [apply H1|]. split; [reflexivity|]. split; [reflexivity|].
  split; [apply H2; reflexivity | apply H3; reflexivity].
Defined.

(** [wipe_dir] on a directory holding two regular files. *)
Lemma wipe_dir_nondir_or_plain_files_witness :
  lookup (fs sample_wipe_world) (split_path "d") = Some (Dir sample_plain_files) /\
  plain_files sample_plain_files = true /\
  exists w', wipe_dir "d" sample_wipe_world = (Ok tt, w') /\
             lookup (fs w') (split_path "d") = Some (Dir []).
Proof.
  split; [reflexivity|]. split; [vm_compute; reflexivity|].
  apply (proj2 wipe_dir_nondir_or_plain_files "d" sample_wipe_world sample_plain_files);
    vm_compute; reflexivity.
Defined.

(** C6 on a zip archive expanded into an empty target directory. *)
Lemma AE_invoke_postcondition_witness :
  data (mkPacket (PStr "in.zip")) <> PNone /\
  AE_invoke (ZipArchiveExpander sample_unzip) (mkAECfg "out" false true)
    (mkPacket (PStr "in.zip"))
    (empty_world (Dir [("in.zip", File "ZIPBYTES"); ("out", Dir [])]), PNone)
  = (Ok (mkPacket (PStr "out")),
     (fst (snd (AE_invoke (ZipArchiveExpander sample_unzip) (mkAECfg "out" false true)
                 (mkPacket (PStr "in.zip"))
                 (empty_world (Dir [("in.zip", File "ZIPBYTES"); ("out", Dir [])]), PNone))),
      PStr "in.zip")) /\
  exists op w1 w2 es,
    AE_output_path (mkAECfg "out" false true) (Some (mkPacket (PStr "in.zip"))) = Ok op /\
    wipe_dir op (empty_world (Dir [("in.zip", File "ZIPBYTES"); ("out", Dir [])])) = (Ok tt, w1) /\
    expand_archive (ZipArchiveExpander sample_unzip) (mkAECfg "out" false true)
      (PStr "in.zip") op w1 = (Ok tt, w2) /\
    lookup (fs w2) (split_path op) = Some (Dir es) /\
    fs (fst (snd (AE_invoke (ZipArchiveExpander sample_unzip) (mkAECfg "out" false true)
                  (mkPacket (PStr "in.zip"))
                  (empty_world (Dir [("in.zip", File "ZIPBYTES"); ("out", Dir [])]), PNone))))
      = fs w2 /\
    PStr "in.zip" = PStr "in.zip" /\
    PStr "out" = match es with [] => PNone | _ :: _ => PStr op end.
Proof.
  split; [discriminate|]. split; [vm_compute; reflexivity|].
  apply (proj1 AE_invoke_postcondition (ZipArchiveExpander sample_unzip)
           (mkAECfg "out" false true) (mkPacket (PStr "in.zip"))
           (empty_world (Dir [("in.zip", File "ZIPBYTES"); ("out", Dir [])])) PNone
           (mkPacket (PStr "out")));
    [discriminate | vm_compute; reflexivity].
Defined.

(** * Further properties of the filters and the driver *)

(** ** Output path templates *)

Lemma py_format_loop_plain_prefix : forall pre r a u,
  no_percent pre = true ->
  py_format_loop (pre ++ r) a u =
  match py_format_loop r a u with
  | Ok x => Ok (pre ++ x)%string
  | Exc e => Exc e
  end.
Proof.
  induction pre as [|c pre IH]; intros r a u H; simpl.
  - destruct (py_format_loop r a u); reflexivity.
  - unfold no_percent in H. simpl in H. apply andb_prop in H as [Hc H].
    apply negb_true_iff in Hc. rewrite Hc. rewrite IH by exact H.
    destruct (py_format_loop r a u); reflexivity.
Qed.

Lemma py_format_loop_plain_used : forall post a,
  no_percent post = true -> py_format_loop post a true = Ok post.
Proof.
  intros post a H. rewrite <- (str_app_nil_r post).
  rewrite py_format_loop_plain_prefix by exact H. reflexivity.
Qed.

Lemma py_format_s_template : forall pre post a,
  no_percent pre = true -> no_percent post = true ->
  py_format_s (pre ++ "%s" ++ post) a = Ok (pre ++ a ++ post)%string.
Proof.
  intros pre post a Hpre Hpost. unfold py_format_s.
  rewrite py_format_loop_plain_prefix by exact Hpre. simpl.
  rewrite py_format_loop_plain_used by exact Hpost. reflexivity.
Qed.

Lemma str_contains_template : forall pre post,
  str_contains "%s" (pre ++ "%s" ++ post) = true.
Proof.
  induction pre as [|c pre IH]; intros post.
  - reflexivity.
  - change (str_contains "%s" (String c (pre ++ "%s" ++ post)) = true).
    unfold str_contains; fold str_contains. rewrite IH. apply orb_true_r.
Qed.

(** [ArchiveExpander.output_path]: a [target_dir] template with one ['%s']
    and no other ['%'] gets the sanitised packet string in place of the
    ['%s']; a [target_dir] without ['%s'] is returned as it is, whatever
    the packet holds. *)
Theorem AE_output_path_template :
  (forall pre post s ri ct,
     no_percent pre = true -> no_percent post = true ->
     AE_output_path (mkAECfg (pre ++ "%s" ++ post) ri ct) (Some (mkPacket (PStr s)))
     = Ok (pre ++ safe_filename s ++ post)%string) /\
  (forall cfg pk,
     str_contains "%s" (target_dir cfg) = false ->
     AE_output_path cfg (Some pk) = Ok (target_dir cfg)).
Proof.
  split.
  - intros pre post s ri ct Hpre Hpost. cbn [AE_output_path res_bind data_of data target_dir].
    rewrite str_contains_template. apply py_format_s_template; assumption.
  - intros cfg pk H. cbn [AE_output_path res_bind data_of data target_dir].
    destruct (data pk); try reflexivity. rewrite H. reflexivity.
Qed.

(** [VsiFileExtractor.output_path]: the same substitution of the
    sanitised /vsi path into a [file_path] template with one ['%s']. *)
Theorem Vsi_output_path_template :
  (forall pre post s bs df,
     no_percent pre = true -> no_percent post = true ->
     Vsi_output_path (mkFECfg (pre ++ "%s" ++ post) df bs) (Some (mkPacket (PStr s)))
     = Ok (pre ++ safe_filename s ++ post)%string) /\
  (forall cfg pk,
     str_contains "%s" (file_path cfg) = false ->
     Vsi_output_path cfg (Some pk) = Ok (file_path cfg)).
Proof.
  split.
  - intros pre post s bs df Hpre Hpost. cbn [Vsi_output_path res_bind data_of data file_path].
    rewrite str_contains_template. apply py_format_s_template; assumption.
  - intros cfg pk H. cbn [Vsi_output_path res_bind data_of data file_path].
    destruct (data pk); try reflexivity. rewrite H. reflexivity.
Qed.

(** [ZipFileExtractor.output_path] with a ['%s'] template: a dict packet
    with a string [name] gets the sanitised name substituted, a dict
    without [name] raises [KeyError], a non-string [name] raises
    [TypeError], and a packet whose data is not a dict falls back to the
    template text itself. *)
Theorem Zip_output_path_template : forall pre post df bs,
  no_percent pre = true -> no_percent post = true ->
  let cfg := mkFECfg (pre ++ "%s" ++ post) df bs in
  (forall kv n, dict_get kv "name" = Ok (PStr n) ->
     Zip_output_path cfg (Some (mkPacket (PDict kv))) = Ok (pre ++ safe_filename n ++ post)%string) /\
  (forall kv, dict_get kv "name" = Exc KeyError ->
     Zip_output_path cfg (Some (mkPacket (PDict kv))) = Exc KeyError) /\
  (forall kv v, dict_get kv "name" = Ok v -> (forall n, v <> PStr n) ->
     Zip_output_path cfg (Some (mkPacket (PDict kv))) = Exc TypeError) /\
  (forall d, (forall kv, d <> PDict kv) ->
     Zip_output_path cfg (Some (mkPacket d)) = Ok (pre ++ "%s" ++ post)%string).
Proof.
  intros pre post df bs Hpre Hpost cfg.
  unfold cfg. cbn [Zip_output_path res_bind data_of data file_path]. rewrite str_contains_template.
  split; [|split; [|split]].
  - intros kv n H. rewrite H. simpl. apply py_format_s_template; assumption.
  - intros kv H. rewrite H. reflexivity.
  - intros kv v H Hv. rewrite H. simpl.
    destruct v as [|b|n|kv']; try reflexivity. exfalso. exact (Hv n eq_refl).
  - intros d Hd. destruct d as [|b|n|kv]; try reflexivity.
    exfalso. exact (Hd kv eq_refl).
Qed.

(** ** Chunked copying of a zip member *)

Lemma substring_split : forall s n,
  (substring 0 n s ++ substring n (String.length s - n) s)%string = s.
Proof.
  induction s as [|c s IH]; intros n.
  - destruct n as [|[|n]]; reflexivity.
  - destruct n as [|n].
    + simpl. f_equal. clear IH. induction s as [|d s IH']; [reflexivity|].
      simpl. f_equal. exact IH'.
    + simpl. f_equal. apply IH.
Qed.

Lemma substring_length_le : forall s n m,
  String.length (substring n m s) <= String.length s - n /\
  String.length (substring n m s) <= m.
Proof.
  induction s as [|c s IH]; intros n m.
  - destruct n, m; simpl; lia.
  - destruct n as [|n], m as [|m]; simpl.
    + lia.
    + destruct (IH 0 m). lia.
    + destruct (IH n 0). lia.
    + destruct (IH n (S m)). simpl in *. lia.
Qed.

Lemma chunks_fuel_concat : forall fuel n s,
  0 < n -> String.length s <= fuel ->
  String.concat "" (chunks_fuel fuel n s) = s /\
  Forall (fun c => c <> ""%string /\ String.length c <= n) (chunks_fuel fuel n s).
Proof.
  induction fuel as [|f IH]; intros n s Hn Hs.
  - destruct s; [split; [reflexivity|constructor]|simpl in Hs; lia].
  - simpl. destruct (String.eqb s "") eqn:E.
    + apply String.eqb_eq in E. subst. split; [reflexivity|constructor].
    + destruct (substring_length_le s n (String.length s - n)) as [H1 _].
      assert (Hf : String.length (substring n (String.length s - n) s) <= f).
      { destruct s; [discriminate|]. destruct n as [|n]; [lia|]. simpl in *. lia. }
      destruct (IH n (substring n (String.length s - n) s) Hn Hf) as [IHc IHf].
      split.
      * destruct (chunks_fuel f n (substring n (String.length s - n) s)) eqn:Ec.
        -- change (String.concat "" []) with ""%string in IHc.
           change (String.concat "" [substring 0 n s]) with (substring 0 n s).
           rewrite <- (substring_split s n) at 2. rewrite <- IHc.
           symmetry. apply str_app_nil_r.
        -- change (String.concat "" (substring 0 n s :: s0 :: l))
             with (substring 0 n s ++ String.concat "" (s0 :: l))%string.
           rewrite IHc. apply substring_split.
      * constructor; [|exact IHf]. split.
        -- destruct s as [|c s]; [discriminate|]. destruct n; [lia|]. discriminate.
        -- apply substring_length_le.
Qed.

(** [while True: buffer = zf.read(buffer_size); if not buffer: break]:
    with a positive [buffer_size] the reads are non-empty pieces of at
    most [buffer_size] characters that put together give the member back;
    a negative [buffer_size] reads the member in one piece; a
    [buffer_size] of 0 reads nothing at all. *)
Theorem read_chunks_round_trip : forall bs s,
  String.concat "" (read_chunks bs s) = (if (bs =? 0)%Z then ""%string else s) /\
  ((0 < bs)%Z ->
   Forall (fun c => c <> ""%string /\ (Z.of_nat (String.length c) <= bs)%Z) (read_chunks bs s)).
Proof.
  intros bs s. unfold read_chunks.
  destruct (Z.ltb_spec bs 0) as [Hneg|Hpos].
  - assert (Hb : (bs =? 0)%Z = false) by (apply Z.eqb_neq; lia). rewrite Hb.
    split; [|intros; lia].
    destruct (String.eqb s "") eqn:E; [apply String.eqb_eq in E; subst; reflexivity|].
    reflexivity.
  - destruct (Z.eqb_spec bs 0) as [H0|H0]; [split; [reflexivity|intros; lia]|].
    destruct (chunks_fuel_concat (String.length s) (Z.to_nat bs) s) as [Hc Hf];
      [lia|lia|].
    split; [exact Hc|]. intros _. eapply Forall_impl; [|exact Hf].
    intros c [Hne Hl]. split; [exact Hne|lia].
Qed.

(** ** Writing a file: [open(p, 'wb')], then [f.write] *)

Lemma assoc_app_fresh : forall {A} x (v : A) es,
  assoc x es = None -> assoc x (es ++ [(x, v)]) = Some v.
Proof.
  induction es as [|[y a] es IH]; intros H; simpl in *.
  - rewrite String.eqb_refl. reflexivity.
  - destruct (String.eqb x y); [discriminate|]. apply IH, H.
Qed.

Lemma assoc_set_entry_some : forall x v es, assoc x (set_entry x (Some v) es) = Some v.
Proof.
  intros x v es. unfold set_entry. destruct (assoc x es) eqn:E.
  - eapply assoc_map_replace, E.
  - apply assoc_app_fresh, E.
Qed.

Lemma split_path_last : forall p,
  split_path p <> [] -> exists P x, split_path p = P ++ [x].
Proof.
  intros p H. destruct (exists_last H) as [P [x E]]. exists P, x. exact E.
Qed.

Lemma node_read_at : forall n op P x es c,
  split_path op = P ++ [x] ->
  lookup n P = Some (Dir es) -> assoc x es = Some (File c) ->
  node_read n op = Some c.
Proof.
  intros n op P x es c Hs Hp Hx. unfold node_read. rewrite Hs.
  rewrite lookup_app, Hp. simpl. rewrite Hx. simpl.
  destruct P; reflexivity.
Qed.

Lemma os_open_write_ok : forall op w w' P x,
  split_path op = P ++ [x] ->
  os_open_write op w = (Ok tt, w') ->
  exists es es', lookup (fs w) P = Some (Dir es) /\
    lookup (fs w') P = Some (Dir es') /\ assoc x es' = Some (File "") /\
    w' = set_fs w (upd (fs w) (P ++ [x]) (fun _ => Some (File ""))).
Proof.
  intros op w w' P x Hs H. unfold os_open_write in H. rewrite Hs in H.
  rewrite removelast_last in H.
  remember (P ++ [x]) as L eqn:EL.
  destruct L as [|y l]; [destruct P; discriminate|].
  destruct (lookup (fs w) P) as [[c|es]|] eqn:Ep; try discriminate.
  destruct (lookup (fs w) (y :: l)) as [[c|es']|]; try discriminate;
    (assert (Ew : w' = set_fs w (upd (fs w) (y :: l) (fun _ => Some (File ""%string))))
       by congruence); subst w'; rewrite EL;
    exists es, (set_entry x (Some (File "")) es);
    (split; [reflexivity|]);
    (split; [cbn [fs set_fs]; exact (lookup_upd_parent P x (fun _ => Some (File ""%string)) (fs w) es Ep)|]);
    (split; [apply assoc_set_entry_some|reflexivity]).
Qed.

Lemma os_write_appends : forall op buf w w' P x es c,
  split_path op = P ++ [x] ->
  lookup (fs w) P = Some (Dir es) -> assoc x es = Some (File c) ->
  os_write op buf w = (Ok tt, w') ->
  exists es', lookup (fs w') P = Some (Dir es') /\
              assoc x es' = Some (File (c ++ buf)) /\
              vsi_files w' = vsi_files w /\ handles w' = handles w /\
              next_handle w' = next_handle w.
Proof.
  intros op buf w w' P x es c Hs Hp Hx H.
  unfold os_write, bind, may_fail in H.
  destruct (faults w) as [|[] fl]; try discriminate;
    inversion H; subst; clear H;
    exists (set_entry x (Some (File (c ++ buf))) es); simpl fs; rewrite Hs;
    (split; [erewrite lookup_upd_parent by exact Hp; rewrite Hx; reflexivity|]);
    (split; [apply assoc_set_entry_some|]); repeat split.
Qed.

Lemma write_chunks_appends : forall op l w w' P x es c,
  split_path op = P ++ [x] ->
  lookup (fs w) P = Some (Dir es) -> assoc x es = Some (File c) ->
  write_chunks op l w = (Ok tt, w') ->
  exists es', lookup (fs w') P = Some (Dir es') /\
              assoc x es' = Some (File (c ++ String.concat "" l)).
Proof.
  intros op l. induction l as [|b l IH]; intros w w' P x es c Hs Hp Hx H.
  - simpl in H. inversion H; subst. exists es. rewrite str_app_nil_r. split; assumption.
  - simpl in H. unfold bind at 1 in H.
    destruct (os_write op b w) as [[[]|e] w1] eqn:Hw; [|discriminate].
    destruct (os_write_appends op b w w1 P x es c Hs Hp Hx Hw) as [es1 [Hp1 [Hx1 _]]].
    destruct (IH w1 w' P x es1 (c ++ b)%string Hs Hp1 Hx1 H) as [es' [Hp' Hx']].
    exists es'. split; [exact Hp'|]. rewrite Hx', str_app_assoc.
    destruct l; simpl; [rewrite str_app_nil_r|]; reflexivity.
Qed.

Lemma read_chunks_concat : forall bs s,
  String.concat "" (read_chunks bs s) = (if (bs =? 0)%Z then ""%string else s).
Proof.
  intros bs s. unfold read_chunks.
  destruct (Z.ltb_spec bs 0) as [Hneg|Hpos].
  - assert (Hb : (bs =? 0)%Z = false) by (apply Z.eqb_neq; lia). rewrite Hb.
    destruct (String.eqb s "") eqn:E; [apply String.eqb_eq in E; subst|]; reflexivity.
  - destruct (Z.eqb_spec bs 0) as [H0|H0]; [reflexivity|].
    apply (chunks_fuel_concat (String.length s) (Z.to_nat bs) s); lia.
Qed.

(** [ZipFileExtractor.extract_file]: when it returns, the archive named by
    [data['file_path']] was read and decoded, and the output file holds
    exactly the member [data['name']]; with [buffer_size] 0 the first read
    is empty and the output file is left empty. *)
Theorem Zip_extract_file_writes_member : forall unzip cfg pk w w',
  Zip_extract_file unzip cfg (Some pk) w = (Ok tt, w') ->
  exists zp zbytes members name member op,
    index_key (data pk) "file_path" = Ok (PStr zp) /\
    node_read (fs w) zp = Some zbytes /\ unzip zbytes = Some members /\
    index_key (data pk) "name" = Ok (PStr name) /\ assoc name members = Some member /\
    Zip_output_path cfg (Some pk) = Ok op /\
    node_read (fs w') op = Some (if (buffer_size cfg =? 0)%Z then ""%string else member).
Proof.
  intros unzip cfg pk w w' H.
  unfold Zip_extract_file, get_data, bind, ret, lift_res in H.
  destruct (index_key (data pk) "file_path") as [[|b|zp|kv]|e] eqn:Hzp;
    simpl in H; try discriminate.
  unfold os_read_file in H.
  destruct (node_read (fs w) zp) as [zb|] eqn:Hzb; [|discriminate].
  destruct (unzip zb) as [members|] eqn:Hm; [|discriminate].
  destruct (Zip_output_path cfg (Some pk)) as [op|e] eqn:Hop; [|discriminate].
  destruct (os_open_write op w) as [[[]|e] w1] eqn:Hw1; [|discriminate].
  destruct (index_key (data pk) "name") as [[|b|name|kv]|e] eqn:Hn;
    simpl in H; try discriminate.
  destruct (assoc name members) as [member|] eqn:Hmem; [|discriminate].
  assert (Hne : split_path op <> []).
  { intros E. unfold os_open_write in Hw1. rewrite E in Hw1. discriminate. }
  destruct (split_path_last op Hne) as [P [x Hs]].
  destruct (os_open_write_ok op w w1 P x Hs Hw1) as [es [es1 [_ [Hp1 [Hx1 _]]]]].
  destruct (write_chunks_appends op _ w1 w' P x es1 "" Hs Hp1 Hx1 H) as [es' [Hp' Hx']].
  exists zp, zb, members, name, member, op.
  repeat split; try assumption.
  eapply node_read_at; [exact Hs|exact Hp'|]. rewrite Hx'.
  simpl. rewrite read_chunks_concat. reflexivity.
Qed.

(** ** Copying a /vsi file *)

Lemma substring_full : forall s, substring 0 (String.length s) s = s.
Proof. induction s as [|c s IH]; [reflexivity|]. simpl. f_equal. exact IH. Qed.

Lemma substring_at_end : forall s m, substring (String.length s) m s = ""%string.
Proof.
  induction s as [|c s IH]; intros m; [destruct m; reflexivity|]. simpl. apply IH.
Qed.

Lemma substring_prefix_length : forall s m,
  substring 0 (String.length (substring 0 m s)) s = substring 0 m s.
Proof.
  induction s as [|c s IH]; intros m; [destruct m; reflexivity|].
  destruct m as [|m]; [reflexivity|]. simpl. f_equal. apply IH.
Qed.

Lemma substring_extend : forall c k m,
  (substring 0 k c ++ substring k m c)%string =
  substring 0 (k + String.length (substring k m c)) c.
Proof.
  induction c as [|a c IH]; intros k m.
  - destruct k as [|k], m as [|m]; reflexivity.
  - destruct k as [|k].
    + change ((substring 0 0 (String a c) ++ substring 0 m (String a c))%string)
        with (substring 0 m (String a c)).
      change (0 + String.length (substring 0 m (String a c)))
        with (String.length (substring 0 m (String a c))).
      symmetry. apply substring_prefix_length.
    + change (substring 0 (S k) (String a c)) with (String a (substring 0 k c)).
      change (substring (S k) m (String a c)) with (substring k m c).
      simpl. f_equal. apply IH.
Qed.

Lemma substring_nonempty : forall c k m,
  k < String.length c -> 0 < m -> 0 < String.length (substring k m c).
Proof.
  induction c as [|a c IH]; intros k m Hk Hm; [simpl in Hk; lia|].
  destruct k as [|k], m as [|m]; try lia.
  - simpl. lia.
  - simpl in Hk |- *. apply IH; lia.
Qed.

Lemma may_fail_ok : forall e w w',
  may_fail e w = (Ok tt, w') ->
  fs w' = fs w /\ vsi_files w' = vsi_files w /\ handles w' = handles w /\
  next_handle w' = next_handle w.
Proof.
  intros e w w' H. unfold may_fail in H.
  destruct (faults w) as [|[] fl]; inversion H; subst; repeat split.
Qed.

Lemma hlookup_hupdate : forall h v v0 l,
  hlookup h l = Some v0 -> hlookup h (hupdate h v l) = Some v.
Proof.
  induction l as [|[h' v'] l IH]; intros H; [discriminate|].
  simpl in *. destruct (Nat.eqb h h') eqn:E; simpl.
  - rewrite Nat.eqb_refl. reflexivity.
  - rewrite E. apply IH, H.
Qed.

Lemma VSIFSeekL_ok : forall h off wh w w' hd,
  hlookup h (handles w) = Some hd ->
  VSIFSeekL (Some h) off wh w = (Ok tt, w') ->
  fs w' = fs w /\ vsi_files w' = vsi_files w /\
  hlookup h (handles w') =
    Some (mkHandle (vh_path hd)
            (if Nat.eqb wh 2 then String.length (vsi_content w (vh_path hd)) + off else off)).
Proof.
  intros h off wh w w' hd Hh H. unfold VSIFSeekL, bind in H.
  destruct (may_fail GdalError w) as [[[]|e] w1] eqn:Hm; [|discriminate].
  destruct (may_fail_ok _ _ _ Hm) as [Hf [Hv [Hhs _]]].
  unfold with_handle in H. rewrite Hhs, Hh in H.
  unfold set_pos, vsi_content in H. rewrite Hv in H. inversion H; subst. clear H.
  simpl. repeat split; try congruence.
  erewrite hlookup_hupdate; [reflexivity|]. rewrite Hhs. exact Hh.
Qed.

Lemma VSIFTellL_ok : forall h w w' hd n,
  hlookup h (handles w) = Some hd ->
  VSIFTellL (Some h) w = (Ok n, w') ->
  n = Z.of_nat (vh_pos hd) /\ fs w' = fs w /\ vsi_files w' = vsi_files w /\
  hlookup h (handles w') = Some hd.
Proof.
  intros h w w' hd n Hh H. unfold VSIFTellL, bind in H.
  destruct (may_fail GdalError w) as [[[]|e] w1] eqn:Hm; [|discriminate].
  destruct (may_fail_ok _ _ _ Hm) as [Hf [Hv [Hhs _]]].
  unfold with_handle in H. rewrite Hhs, Hh in H. unfold ret in H.
  inversion H; subst. repeat split; congruence.
Qed.

Lemma VSIFReadL_ok : forall h size w w' hd b,
  hlookup h (handles w) = Some hd ->
  VSIFReadL size (Some h) w = (Ok b, w') ->
  b = substring (vh_pos hd) (Z.to_nat size) (vsi_content w (vh_path hd)) /\
  fs w' = fs w /\ vsi_files w' = vsi_files w /\
  hlookup h (handles w') = Some (mkHandle (vh_path hd) (vh_pos hd + String.length b)).
Proof.
  intros h size w w' hd b Hh H. unfold VSIFReadL, bind in H.
  destruct (may_fail GdalError w) as [[[]|e] w1] eqn:Hm; [|discriminate].
  destruct (may_fail_ok _ _ _ Hm) as [Hf [Hv [Hhs _]]].
  unfold with_handle in H. rewrite Hhs, Hh in H.
  unfold set_pos, vsi_content in H. rewrite Hv in H. simpl in H.
  inversion H; subst. clear H. unfold vsi_content.
  repeat split; simpl; try congruence.
  erewrite hlookup_hupdate; [reflexivity|]. rewrite Hhs. exact Hh.
Qed.

(** The copy loop, from read position [k] of the /vsi file [c]: the
    output file, holding the first [k] characters, ends up holding [c]. *)
Lemma vsi_copy_loop_copies : forall h op rs path c P x fuel k w w' es,
  split_path op = P ++ [x] ->
  hlookup h (handles w) = Some (mkHandle path k) ->
  assoc path (vsi_files w) = Some c ->
  lookup (fs w) P = Some (Dir es) -> assoc x es = Some (File (substring 0 k c)) ->
  k <= String.length c -> String.length c - k < fuel ->
  (0 < Z.to_nat rs \/ k = String.length c) ->
  vsi_copy_loop (Some h) op rs fuel w = (Ok tt, w') ->
  exists es', lookup (fs w') P = Some (Dir es') /\ assoc x es' = Some (File c).
Proof.
  intros h op rs path c P x fuel.
  induction fuel as [|f IH]; intros k w w' es Hs Hh Hc Hp Hx Hk Hfuel Hrs H; [lia|].
  simpl in H. unfold bind at 1 in H.
  destruct (VSIFReadL rs (Some h) w) as [[b|e] w1] eqn:Hr; [|discriminate].
  destruct (VSIFReadL_ok _ _ _ _ _ _ Hh Hr) as [Hb [Hf1 [Hv1 Hh1]]].
  simpl in Hb. unfold vsi_content in Hb. rewrite Hc in Hb.
  destruct (String.eqb b "") eqn:Eb.
  - apply String.eqb_eq in Eb. subst b. unfold ret in H. inversion H; subst w'.
    assert (Hkc : k = String.length c).
    { destruct Hrs as [Hrs|Hrs]; [|exact Hrs].
      destruct (Nat.lt_ge_cases k (String.length c)) as [Hlt|Hge]; [|lia].
      pose proof (substring_nonempty c k (Z.to_nat rs) Hlt Hrs) as Hn.
      rewrite <- Hb in Hn. simpl in Hn. lia. }
    exists es. rewrite Hf1. split; [exact Hp|]. rewrite Hx, Hkc, substring_full. reflexivity.
  - unfold bind at 1 in H.
    destruct (os_write op b w1) as [[[]|e] w2] eqn:Hw; [|discriminate].
    rewrite <- Hf1 in Hp.
    destruct (os_write_appends op b w1 w2 P x es _ Hs Hp Hx Hw)
      as [es2 [Hp2 [Hx2 [Hv2 [Hh2 _]]]]].
    assert (Hlb : 0 < String.length b) by (destruct b; [discriminate|simpl; lia]).
    assert (Hkb : k + String.length b <= String.length c).
    { rewrite Hb. pose proof (substring_length_le c k (Z.to_nat rs)) as [L _]. lia. }
    apply (IH (k + String.length b) w2 w' es2); try assumption.
    + rewrite Hh2. exact Hh1.
    + rewrite Hv2, Hv1. exact Hc.
    + rewrite Hx2. f_equal. f_equal. rewrite Hb. apply substring_extend.
    + lia.
    + destruct Hrs as [Hrs|Hrs]; [left; exact Hrs|lia].
Qed.

Lemma bind_ok_inv : forall {S A B} (m : st S A) (k : A -> st S B) s b s',
  bind m k s = (Ok b, s') -> exists a s1, m s = (Ok a, s1) /\ k a s1 = (Ok b, s').
Proof.
  intros S A B m k s b s' H. unfold bind in H.
  destruct (m s) as [[a|e] s1]; [|discriminate]. exists a, s1. split; [reflexivity|exact H].
Qed.

Lemma lw_ok_inv : forall {L A} (m : st world A) w (l : L) a s,
  lw m (w, l) = (Ok a, s) -> exists w1, m w = (Ok a, w1) /\ s = (w1, l).
Proof.
  intros L A m w l a s H. unfold lw in H. simpl in H.
  destruct (m w) as [r w1]. inversion H; subst. exists w1. split; reflexivity.
Qed.

Lemma Vsi_extract_body_copies : forall cfg pk path w l s1,
  data pk = PStr path -> (0 < buffer_size cfg)%Z ->
  Vsi_extract_body cfg (Some pk) (PStr path) (w, l) = (Ok tt, s1) ->
  exists c op, assoc path (vsi_files w) = Some c /\
    Vsi_output_path cfg (Some pk) = Ok op /\ node_read (fs (fst s1)) op = Some c.
Proof.
  intros cfg pk path w l s1 Hd Hbs H. unfold Vsi_extract_body in H.
  (* [log.info] *)
  apply bind_ok_inv in H as [u [sa [B1 H]]].
  apply lw_ok_inv in B1 as [w1 [B1 ->]]. unfold log_msg in B1.
  injection B1 as _ Ew1. cbv beta in H.
  (* [VSIFOpenL] *)
  apply bind_ok_inv in H as [v [sb [B2 H]]].
  apply lw_ok_inv in B2 as [w2 [B2 ->]]. cbv beta in H.
  apply bind_ok_inv in H as [u' [sc [B3 H]]].
  unfold set_vsi in B3. injection B3 as _ Esc. subst sc. cbv beta in H.
  (* [output_path] *)
  apply bind_ok_inv in H as [op [sd [B4 H]]].
  apply lw_ok_inv in B4 as [w4 [B4 ->]]. unfold lift_res in B4.
  injection B4 as Eop Ew4. subst w4. cbv beta in H.
  (* [open(output_path, 'wb')] *)
  apply bind_ok_inv in H as [u4 [se [B5 H]]].
  apply lw_ok_inv in B5 as [w5 [B5 ->]]. destruct u4. cbv beta in H.
  (* [VSIFSeekL(vsi, 0, 2)] *)
  apply bind_ok_inv in H as [u5 [sf [B6 H]]].
  apply lw_ok_inv in B6 as [w6 [B6 ->]]. destruct u5. cbv beta in H.
  (* [VSIFTellL] *)
  apply bind_ok_inv in H as [len [sg [B7 H]]].
  apply lw_ok_inv in B7 as [w7 [B7 ->]]. cbv beta in H.
  apply bind_ok_inv in H as [u7 [sh [B8 H]]].
  unfold set_vsi_len in B8. injection B8 as _ Esh. subst sh. cbv beta in H.
  (* [VSIFSeekL(vsi, 0, 0)] *)
  apply bind_ok_inv in H as [u8 [si [B9 H]]].
  apply lw_ok_inv in B9 as [w9 [B9 ->]]. destruct u8. cbv beta zeta in H.
  (* the copy loop *)
  destruct s1 as [w' l']. apply lw_ok_inv in H as [w10 [B10 E10]].
  injection E10 as Ew10 _. subst w10. simpl fst.
  (* the handle opened *)
  unfold VSIFOpenL, bind in B2.
  destruct (may_fail GdalError w1) as [[[]|e] w1'] eqn:Hm; [|discriminate].
  destruct (may_fail_ok _ _ _ Hm) as [Hf1 [Hv1 [Hh1 Hn1]]].
  destruct (assoc path (vsi_files w1')) as [c0|] eqn:Hc.
  2:{ injection B2 as Ev _. subst v. unfold VSIFSeekL, bind, with_handle in B6.
      destruct (may_fail GdalError w5) as [[[]|e] ?]; discriminate. }
  injection B2 as Ev Ew2. subst v w2.
  set (h := next_handle w1') in *.
  assert (Hne : split_path op <> []).
  { intros E. unfold os_open_write in B5. rewrite E in B5. discriminate. }
  destruct (split_path_last op Hne) as [P [x Hs]].
  destruct (os_open_write_ok op _ w5 P x Hs B5) as [es0 [es5 [_ [Hp5 [Hx5 Ew5]]]]].
  assert (Hh5 : hlookup h (handles w5) = Some (mkHandle path 0))
    by (rewrite Ew5; simpl; rewrite Nat.eqb_refl; reflexivity).
  assert (Hv5 : vsi_files w5 = vsi_files w1') by (rewrite Ew5; reflexivity).
  destruct (VSIFSeekL_ok _ _ _ _ _ _ Hh5 B6) as [Hf6 [Hv6 Hh6]]. simpl in Hh6.
  unfold vsi_content in Hh6. rewrite Hv5, Hc, Nat.add_0_r in Hh6.
  destruct (VSIFTellL_ok _ _ _ _ _ Hh6 B7) as [Hlen [Hf7 [Hv7 Hh7]]]. simpl in Hlen.
  destruct (VSIFSeekL_ok _ _ _ _ _ _ Hh7 B9) as [Hf9 [Hv9 Hh9]]. simpl in Hh9.
  subst len.
  set (rs := if (Z.of_nat (String.length c0) <? buffer_size cfg)%Z
             then Z.of_nat (String.length c0) else buffer_size cfg) in B10.
  assert (Hx0 : assoc x es5 = Some (File (substring 0 0 c0))) by (rewrite Hx5; destruct c0; reflexivity).
  rewrite <- Hf6, <- Hf7, <- Hf9 in Hp5.
  destruct (vsi_copy_loop_copies h op rs path c0 P x
              (S (Z.to_nat (Z.of_nat (String.length c0))))
              0 w9 w' es5 Hs Hh9) as [es' [Hp' Hx']]; try assumption.
  - rewrite Hv9, Hv7, Hv6, Hv5. exact Hc.
  - lia.
  - lia.
  - destruct (String.length c0) as [|n] eqn:Hl; [right; reflexivity|left].
    unfold rs. destruct (Z.ltb_spec (Z.of_nat (S n)) (buffer_size cfg)); lia.
  - exists c0, op. split; [|split].
    + rewrite <- Ew1 in Hv1. simpl in Hv1. rewrite <- Hv1. exact Hc.
    + exact Eop.
    + eapply node_read_at; eassumption.
Qed.

(** [VsiFileExtractor.extract_file] with a positive [buffer_size]: when it
    returns, GDAL knew the /vsi path of the packet and the output file holds
    exactly its contents, read in pieces of [min(buffer_size, length)]. *)
Theorem Vsi_extract_file_copies_content : forall cfg pk path w w',
  data pk = PStr path -> (0 < buffer_size cfg)%Z ->
  Vsi_extract_file cfg (Some pk) w = (Ok tt, w') ->
  exists c op, assoc path (vsi_files w) = Some c /\
    Vsi_output_path cfg (Some pk) = Ok op /\ node_read (fs w') op = Some c.
Proof.
  intros cfg pk path w w' Hd Hbs H.
  unfold Vsi_extract_file, get_data, ret, bind in H. rewrite Hd in H.
  unfold try_finally, try_except in H.
  destruct (Vsi_extract_body cfg (Some pk) (PStr path) (w, mkLocals None 0%Z))
    as [[[]|e] s1] eqn:Hb.
  - destruct (Vsi_extract_body_copies cfg pk path w _ s1 Hd Hbs Hb) as [c [op [Hc [Hop Hr]]]].
    exists c, op. split; [exact Hc|]. split; [exact Hop|].
    destruct s1 as [w1 l1]. unfold Vsi_extract_finally in H. simpl in H, Hr.
    destruct (l_vsi l1) as [h|].
    + unfold bind, lw, log_msg, VSIFCloseL in H. simpl in H. inversion H; subst. exact Hr.
    + inversion H; subst. exact Hr.
  - unfold Vsi_extract_handler, bind, lw, log_msg, raise in H. simpl in H.
    destruct s1 as [w1 l1]. simpl in H.
    destruct (Vsi_extract_finally (PStr path) _) as [[]]; discriminate.
Qed.

(** ** ArchiveExpander.after_chain_invoke *)

(** With [remove_input_file] set (and [clear_target_dir] unset), the
    archive recorded by the last [invoke] is deleted when it is a regular
    file, the call returns [True], and no other change is made; before any
    [invoke] the recorded value is [None] and [os.path.isfile(None)] raises
    [TypeError]. *)
Theorem AE_after_chain_invoke_removes_input : forall td p w,
  (forall fp, exists w',
     AE_after_chain_invoke (mkAECfg td true false) p (w, PStr fp) =
     (Ok (PBool true), (w', PStr fp)) /\
     w' = (if node_isfile (fs w) fp then set_fs w (node_remove (fs w) fp) else w) /\
     node_isfile (fs w') fp = false) /\
  (forall ct, AE_after_chain_invoke (mkAECfg td true ct) p (w, PNone) =
              (Exc TypeError, (w, PNone))).
Proof.
  intros td p w. split.
  - intros fp. exists (if node_isfile (fs w) fp then set_fs w (node_remove (fs w) fp) else w).
    unfold AE_after_chain_invoke, AE_remove_file, get_input_archive_file, bind, lw,
      ret, os_path_isfile, os_remove. simpl.
    destruct (node_isfile (fs w) fp) eqn:E; simpl; rewrite ?E;
      (split; [reflexivity|split; [reflexivity|]]).
    + apply isfile_after_remove.
    + reflexivity.
  - intros ct. reflexivity.
Qed.

(** With [clear_target_dir] set (the default), [after_chain_invoke] on the
    [None] packet a chain passes when it never saw one never reaches
    [wipe_dir]: with [remove_input_file] unset it raises [AttributeError]
    ([output_path] reads [packet.data]) and changes nothing; with it set,
    [remove_file] runs first: a recorded archive path is removed when it is
    a regular file and then [AttributeError] is raised, while no recorded
    archive ([None]) makes [os.path.isfile] raise [TypeError]. *)
Theorem AE_after_chain_invoke_None_packet_raises : forall td w,
  (forall iaf, AE_after_chain_invoke (mkAECfg td false true) None (w, iaf) =
               (Exc AttributeError, (w, iaf))) /\
  (forall fp, AE_after_chain_invoke (mkAECfg td true true) None (w, PStr fp) =
     (Exc AttributeError,
      (if node_isfile (fs w) fp then set_fs w (node_remove (fs w) fp) else w, PStr fp))) /\
  AE_after_chain_invoke (mkAECfg td true true) None (w, PNone) = (Exc TypeError, (w, PNone)).
Proof.
  intros td w. split; [intros iaf; reflexivity|]. split; [|reflexivity].
  intros fp.
  unfold AE_after_chain_invoke, AE_remove_file, get_input_archive_file, bind, lw,
    ret, os_path_isfile, os_remove. simpl.
  destruct (node_isfile (fs w) fp) eqn:E; simpl; rewrite ?E; reflexivity.
Qed.

(** ** The base FileExtractor *)

(** The abstract [FileExtractor] used as it is: on a packet with data,
    [invoke] deletes the file at [file_path], extracts nothing, and
    returns the packet with data [None]. *)
Theorem FileExtractor_base_invoke_deletes : forall fp df bs pk w,
  data pk <> PNone ->
  let w1 := if node_isfile (fs w) fp then set_fs w (node_remove (fs w) fp) else w in
  FE_invoke FileExtractor (mkFECfg fp df bs) pk w =
  (Ok (mkPacket PNone),
   add_log (add_log w1 "Only classes derived from FileExtractor can be used!")
           ("Extracted file " ++ fp ++ " does not exist")) /\
  node_isfile (fs w1) fp = false.
Proof.
  intros fp df bs pk w Hd w1.
  assert (H1 : node_isfile (fs w1) fp = false).
  { unfold w1. destruct (node_isfile (fs w) fp) eqn:E; [apply isfile_after_remove|exact E]. }
  split; [|exact H1].
  unfold FE_invoke.
  assert (Hdel : FE_delete_target_file FileExtractor (mkFECfg fp df bs) (Some pk) w = (Ok tt, w1)).
  { unfold FE_delete_target_file, w1, bind, lift_res, os_path_isfile, os_remove. simpl.
    destruct (node_isfile (fs w) fp) eqn:E; simpl; rewrite ?E; reflexivity. }
  destruct (data pk); [congruence| | |];
    unfold bind at 1; rewrite Hdel; simpl; unfold bind, lift_res, os_path_isfile, log_msg, ret;
    simpl; rewrite H1; reflexivity.
Qed.

(** ** Failures of ZipFileExtractor.extract_file *)

(** [ZipFileExtractor.extract_file] fails without touching the file system
    when the packet names no archive ([data['file_path']] missing or not a
    string), when the archive cannot be read, or when it is not a zip file;
    when the archive holds no member [data['name']], the output file has
    already been opened for writing and is left empty. *)
Theorem Zip_extract_file_failures : forall unzip cfg pk w,
  (forall e, res_bind (index_key (data pk) "file_path") as_str = Exc e ->
     Zip_extract_file unzip cfg (Some pk) w = (Exc e, w)) /\
  (forall zp, index_key (data pk) "file_path" = Ok (PStr zp) ->
     node_read (fs w) zp = None ->
     Zip_extract_file unzip cfg (Some pk) w = (Exc IOError, w)) /\
  (forall zp zb, index_key (data pk) "file_path" = Ok (PStr zp) ->
     node_read (fs w) zp = Some zb -> unzip zb = None ->
     Zip_extract_file unzip cfg (Some pk) w = (Exc BadZipFile, w)) /\
  (forall zp zb members op name w1,
     index_key (data pk) "file_path" = Ok (PStr zp) ->
     node_read (fs w) zp = Some zb -> unzip zb = Some members ->
     Zip_output_path cfg (Some pk) = Ok op ->
     os_open_write op w = (Ok tt, w1) ->
     index_key (data pk) "name" = Ok (PStr name) -> assoc name members = None ->
     Zip_extract_file unzip cfg (Some pk) w = (Exc KeyError, w1) /\
     node_read (fs w1) op = Some ""%string).
Proof.
  intros unzip cfg pk w.
  unfold Zip_extract_file, get_data, ret, bind, lift_res, os_read_file.
  split; [|split; [|split]].
  - intros e H. rewrite H. reflexivity.
  - intros zp Hzp Hr. rewrite Hzp. simpl. rewrite Hr. reflexivity.
  - intros zp zb Hzp Hr Hu. rewrite Hzp. simpl. rewrite Hr, Hu. reflexivity.
  - intros zp zb members op name w1 Hzp Hr Hu Hop Hw Hn Hm.
    rewrite Hzp. simpl. rewrite Hr, Hu, Hop, Hw, Hn. simpl. rewrite Hm.
    split; [reflexivity|].
    assert (Hne : split_path op <> []).
    { intros E. unfold os_open_write in Hw. rewrite E in Hw. discriminate. }
    destruct (split_path_last op Hne) as [P [x Hs]].
    destruct (os_open_write_ok op w w1 P x Hs Hw) as [es [es1 [_ [Hp1 [Hx1 _]]]]].
    eapply node_read_at; eassumption.
Qed.

(** ** The chain list of ETL.run *)

Lemma count_char_app : forall c s t,
  count_char c (s ++ t) = count_char c s + count_char c t.
Proof. induction s as [|d s IH]; intros t; simpl; [reflexivity|]. rewrite IH. lia. Qed.

Lemma count_char_rev : forall c s, count_char c (str_rev s) = count_char c s.
Proof.
  induction s as [|d s IH]; [reflexivity|]. simpl.
  rewrite count_char_app, IH. simpl. lia.
Qed.

Lemma count_char_lstrip : forall c s, count_char c (lstrip s) <= count_char c s.
Proof.
  induction s as [|d s IH]; [simpl; lia|]. simpl.
  destruct (is_ws d); simpl; lia.
Qed.

Lemma count_char_strip : forall c s, count_char c (py_strip s) <= count_char c s.
Proof.
  intros c s. unfold py_strip.
  rewrite count_char_rev. etransitivity; [apply count_char_lstrip|].
  rewrite count_char_rev. apply count_char_lstrip.
Qed.

Lemma split_sep_acc_fields : forall sep s cur,
  count_char sep cur = 0 ->
  length (split_sep_acc sep s cur) = S (count_char sep s) /\
  Forall (fun f => count_char sep f = 0) (split_sep_acc sep s cur) /\
  String.concat (String sep "") (split_sep_acc sep s cur) = (cur ++ s)%string.
Proof.
  induction s as [|c s IH]; intros cur Hcur.
  - simpl. rewrite str_app_nil_r. repeat constructor. exact Hcur.
  - simpl. destruct (Ascii.eqb c sep) eqn:E.
    + apply Ascii.eqb_eq in E. subst c. rewrite Ascii.eqb_refl.
      destruct (IH "" eq_refl) as [Hl [Hf Hc]].
      split; [simpl; rewrite Hl; reflexivity|]. split; [constructor; assumption|].
      destruct (split_sep_acc sep s "") as [|f fs] eqn:Es; [discriminate|].
      change (String.concat (String sep "") (cur :: f :: fs))
        with (cur ++ String sep "" ++ String.concat (String sep "") (f :: fs))%string.
      rewrite Hc. reflexivity.
    + assert (Ec : Ascii.eqb sep c = false) by (rewrite Ascii.eqb_sym; exact E).
      rewrite Ec. simpl.
      destruct (IH (cur ++ String c "")%string) as [Hl [Hf Hc]].
      { rewrite count_char_app. simpl. rewrite Ec, Hcur. reflexivity. }
      split; [exact Hl|]. split; [exact Hf|]. rewrite Hc, str_app_assoc. reflexivity.
Qed.

(** [ETL.run] builds one [Chain] per comma-separated field of the [chains]
    value, empty fields included: one more chain than there are commas, no
    chain string holding a comma, each sharing the driver's configuration,
    and the fields joined by commas give the value back. *)
Theorem chains_of_fields : forall cfg v,
  length (chains_of cfg v) = S (count_char "," v) /\
  Forall (fun ch => chain_config ch = cfg /\ count_char "," (chain_str ch) = 0)
         (chains_of cfg v) /\
  String.concat "," (py_split "," v) = v.
Proof.
  intros cfg v. unfold chains_of, py_split.
  destruct (split_sep_acc_fields ","%char v "" eq_refl) as [Hl [Hf Hc]].
  split; [rewrite length_map; exact Hl|]. split; [|exact Hc].
  apply Forall_map. eapply Forall_impl; [|exact Hf].
  intros f Hf0. simpl. split; [reflexivity|].
  cbv beta in Hf0. pose proof (count_char_strip ","%char f). lia.
Qed.

(** ** ZipArchiveExpander.expand_archive on a flat archive *)

Lemma no_slash_not_ends : forall x, no_slash x = true -> ends_with_slash x = false.
Proof.
  induction x as [|c x IH]; intros H; [reflexivity|].
  simpl in H. apply andb_prop in H as [Hc Hx].
  destruct x as [|d x].
  - simpl. apply negb_true_iff in Hc. exact Hc.
  - change (ends_with_slash (String d x) = false). apply IH, Hx.
Qed.

Lemma assoc_app : forall {A} x (l1 l2 : list (string * A)),
  assoc x (l1 ++ l2) = match assoc x l1 with Some a => Some a | None => assoc x l2 end.
Proof.
  induction l1 as [|[y a] l1 IH]; intros l2; [reflexivity|].
  simpl. destruct (String.eqb x y); [reflexivity|apply IH].
Qed.

Lemma assoc_set_entry_other : forall x y v es,
  y <> x -> assoc y (set_entry x (Some v) es) = assoc y es.
Proof.
  intros x y v es Hyx. unfold set_entry. destruct (assoc x es) eqn:E.
  - clear E. induction es as [|[z a] es IH]; [reflexivity|].
    simpl. destruct (String.eqb x z) eqn:Exz.
    + apply String.eqb_eq in Exz. subst z. simpl.
      apply String.eqb_neq in Hyx. rewrite Hyx. exact IH.
    + simpl. destruct (String.eqb y z); [reflexivity|exact IH].
  - rewrite assoc_app. destruct (assoc y es); [reflexivity|].
    simpl. apply String.eqb_neq in Hyx. rewrite Hyx. reflexivity.
Qed.

Lemma mkdirs_existing : forall P n es,
  lookup n P = Some (Dir es) -> exists n', mkdirs n P = Some n' /\ lookup n' P = Some (Dir es).
Proof.
  induction P as [|x P IH]; intros n es H.
  - simpl in H. injection H as ->. exists (Dir es). split; reflexivity.
  - destruct n as [c|es0]; [discriminate|].
    cbn [lookup] in H. destruct (assoc x es0) as [c|] eqn:Ex; [|discriminate].
    destruct (IH c es H) as [c' [Hm Hl]].
    exists (Dir (set_entry x (Some c') es0)). split.
    + cbn [mkdirs]. rewrite Ex, Hm. reflexivity.
    + cbn [lookup]. rewrite assoc_set_entry_some. exact Hl.
Qed.

Lemma extract_member_flat : forall out x c w es,
  lookup (fs w) (split_path out) = Some (Dir es) ->
  plain_member_name x = true -> not_dir (assoc x es) = true ->
  exists w', extract_member out (x, c) w = (Ok tt, w') /\
    lookup (fs w') (split_path out) = Some (Dir (set_entry x (Some (File c)) es)).
Proof.
  intros out x c w es Hp Hx Hnd.
  unfold plain_member_name in Hx.
  apply andb_prop in Hx as [Hx Hdd]. apply andb_prop in Hx as [Hx Hd].
  assert (Hs : member_parts x = [x]).
  { unfold member_parts. rewrite (split_path_valid_name x Hx). simpl.
    rewrite Hd, Hdd. reflexivity. }
  assert (He : ends_with_slash x = false).
  { apply no_slash_not_ends. unfold valid_name in Hx. apply andb_prop in Hx as [_ Hx]. exact Hx. }
  destruct (mkdirs_existing (split_path out) (fs w) es Hp) as [n [Hm Hl]].
  assert (Hlx : lookup n (split_path out ++ [x]) = assoc x es).
  { rewrite lookup_app, Hl. simpl. destruct (assoc x es); reflexivity. }
  unfold extract_member. cbv beta zeta. cbn [fst snd]. rewrite He, Hs.
  destruct (split_path out ++ [x]) as [|z Z] eqn:Ez.
  - destruct (split_path out); discriminate.
  - rewrite <- Ez in Hlx |- *. rewrite removelast_last, Hm, Hlx.
    exists (set_fs w (upd n (split_path out ++ [x]) (fun _ => Some (File c)))).
    split.
    + destruct (assoc x es) as [[c0|es0]|]; [reflexivity|discriminate|reflexivity].
    + cbn [fs set_fs]. exact (lookup_upd_parent _ x _ n es Hl).
Qed.

Lemma extract_members_flat : forall out ms w es,
  lookup (fs w) (split_path out) = Some (Dir es) ->
  forallb (fun m => plain_member_name (fst m) && not_dir (assoc (fst m) es)) ms = true ->
  exists w' es', extract_members out ms w = (Ok tt, w') /\
    lookup (fs w') (split_path out) = Some (Dir es') /\
    forall x, assoc x es' = match assoc x (rev ms) with
                            | Some c => Some (File c)
                            | None => assoc x es
                            end.
Proof.
  intros out ms. induction ms as [|[y c] ms IH]; intros w es Hp Hall.
  - exists w, es. split; [reflexivity|]. split; [exact Hp|]. intros x. reflexivity.
  - cbn [forallb fst] in Hall. apply andb_prop in Hall as [Hyc Hall].
    apply andb_prop in Hyc as [Hy Hnd].
    destruct (extract_member_flat out y c w es Hp Hy Hnd) as [w1 [E1 Hp1]].
    assert (Hall1 : forallb (fun m => plain_member_name (fst m) &&
                      not_dir (assoc (fst m) (set_entry y (Some (File c)) es))) ms = true).
    { rewrite forallb_forall in Hall |- *. intros m Hm. specialize (Hall m Hm).
      apply andb_prop in Hall as [Hv Hn]. rewrite Hv. cbn [andb].
      destruct (String.eqb (fst m) y) eqn:Emy.
      - apply String.eqb_eq in Emy. rewrite Emy, assoc_set_entry_some. reflexivity.
      - apply String.eqb_neq in Emy. rewrite assoc_set_entry_other by exact Emy. exact Hn. }
    destruct (IH w1 _ Hp1 Hall1) as [w' [es' [E' [Hp' Hx']]]].
    exists w', es'. split; [|split; [exact Hp'|]].
    + cbn [extract_members]. unfold bind. rewrite E1. exact E'.
    + intros x. rewrite Hx'. cbn [rev]. rewrite assoc_app.
      destruct (assoc x (rev ms)); [reflexivity|]. simpl.
      destruct (String.eqb x y) eqn:Exy.
      * apply String.eqb_eq in Exy. subst. apply assoc_set_entry_some.
      * apply String.eqb_neq in Exy. apply assoc_set_entry_other, Exy.
Qed.

(** [ZipArchiveExpander.expand_archive] on a readable zip archive whose
    members are plain names (one component, not ['.'] or ['..']), none
    naming a subdirectory of the existing output directory, succeeds; afterwards the output directory lists each
    member as a regular file holding the content of the last member of
    that name, and every other entry is left as it was. *)
Theorem Zip_expand_archive_flat : forall unzip cfg fp out w zb members es,
  str_endswith (str_lower fp) "zip" = true ->
  node_read (fs w) fp = Some zb -> unzip zb = Some members ->
  lookup (fs w) (split_path out) = Some (Dir es) ->
  forallb (fun m => plain_member_name (fst m) && not_dir (assoc (fst m) es)) members = true ->
  exists w' es', Zip_expand_archive unzip cfg (PStr fp) out w = (Ok tt, w') /\
    lookup (fs w') (split_path out) = Some (Dir es') /\
    forall x, assoc x es' = match assoc x (rev members) with
                            | Some c => Some (File c)
                            | None => assoc x es
                            end.
Proof.
  intros unzip cfg fp out w zb members es Hz Hr Hu Hp Hall.
  destruct (extract_members_flat out members w es Hp Hall) as [w' [es' [E [Hp' Hx]]]].
  exists w', es'. split; [|split; assumption].
  unfold Zip_expand_archive. rewrite Hz. cbn [negb].
  unfold bind, os_read_file, lift_res. rewrite Hr, Hu. exact E.
Qed.

(** ** VsiFileExtractor.extract_file on a path GDAL cannot open *)

Lemma os_open_write_same_fs : forall op w w1 w0,
  os_open_write op w = (Ok tt, w1) -> fs w0 = fs w ->
  os_open_write op w0 = (Ok tt, set_fs w0 (fs w1)).
Proof.
  intros op w w1 w0 H Hf. unfold os_open_write in *. rewrite Hf.
  destruct (split_path op) as [|y l]; [discriminate|].
  destruct (lookup (fs w) (removelast (y :: l))) as [[c|es]|]; try discriminate.
  destruct (lookup (fs w) (y :: l)) as [[c'|es']|]; try discriminate;
    injection H as <-; reflexivity.
Qed.

Lemma os_open_write_empty : forall op w w1,
  os_open_write op w = (Ok tt, w1) -> node_read (fs w1) op = Some ""%string.
Proof.
  intros op w w1 Hw.
  assert (Hne : split_path op <> []).
  { intros E. unfold os_open_write in Hw. rewrite E in Hw. discriminate. }
  destruct (split_path_last op Hne) as [P [x Hs]].
  destruct (os_open_write_ok op w w1 P x Hs Hw) as [es [es1 [_ [Hp1 [Hx1 _]]]]].
  eapply node_read_at; eassumption.
Qed.

Lemma Vsi_extract_body_unknown_path : forall cfg pk path op w w1 l,
  faults w = [] -> assoc path (vsi_files w) = None ->
  Vsi_output_path cfg (Some pk) = Ok op ->
  os_open_write op w = (Ok tt, w1) ->
  Vsi_extract_body cfg (Some pk) (PStr path) (w, l) =
    (Exc ValueError, (set_fs (add_log w ("Extracting " ++ path)) (fs w1),
                      mkLocals None (l_vsi_len l))).
Proof.
  intros cfg pk path op w w1 l Hf Hc Hop Hw.
  pose proof (os_open_write_same_fs op w w1 (add_log w ("Extracting " ++ path)) Hw eq_refl) as Hw'.
  unfold Vsi_extract_body, bind, lw, log_msg. cbn [fst snd py_str].
  unfold VSIFOpenL, bind, may_fail. cbn [faults add_log]. rewrite Hf.
  change (vsi_files (add_log w ("Extracting " ++ path))) with (vsi_files w).
  rewrite Hc. cbn [set_vsi fst snd]. unfold lift_res. rewrite Hop. cbn [fst snd].
  rewrite Hw'. cbn [fst snd]. unfold VSIFSeekL, bind, may_fail.
  change (faults (set_fs (add_log w ("Extracting " ++ path)) (fs w1))) with (faults w).
  rewrite Hf. reflexivity.
Qed.

(** When GDAL cannot open the path in [packet.data] ([VSIFOpenL] returns
    [None]), [VsiFileExtractor.extract_file] has already created the output
    file when the first [VSIFSeekL] call rejects the [None] handle: it
    raises [ValueError], leaves an empty output file behind, opens no
    handle (the [finally] clause skips [VSIFCloseL]), and logs
    ['Extracting <path>'] then ['Cannot extract <path>']. *)
Theorem Vsi_extract_file_unknown_path : forall cfg pk path op w w1,
  data pk = PStr path -> faults w = [] -> assoc path (vsi_files w) = None ->
  Vsi_output_path cfg (Some pk) = Ok op ->
  os_open_write op w = (Ok tt, w1) ->
  exists w', Vsi_extract_file cfg (Some pk) w = (Exc ValueError, w') /\
    node_read (fs w') op = Some ""%string /\ handles w' = handles w /\
    log w' = log w ++ ["Extracting " ++ path; "Cannot extract " ++ path]%string.
Proof.
  intros cfg pk path op w w1 Hd Hf Hc Hop Hw.
  exists (add_log (set_fs (add_log w ("Extracting " ++ path)) (fs w1))
                  ("Cannot extract " ++ path)).
  split; [|split; [|split]].
  - unfold Vsi_extract_file. unfold bind at 1. unfold get_data, ret. rewrite Hd.
    unfold try_finally, try_except.
    rewrite (Vsi_extract_body_unknown_path cfg pk path op w w1 _ Hf Hc Hop Hw).
    reflexivity.
  - exact (os_open_write_empty op w w1 Hw).
  - reflexivity.
  - cbn [log add_log set_fs]. rewrite <- app_assoc. reflexivity.
Qed.

(** ** Witnesses of the further properties *)

Lemma AE_output_path_template_witness :
  no_percent "out/" = true /\ no_percent ""%string = true /\
  AE_output_path (mkAECfg ("out/" ++ "%s" ++ "") false true)
                 (Some (mkPacket (PStr "a b.zip")))
  = Ok ("out/" ++ safe_filename "a b.zip" ++ "")%string /\
  str_contains "%s" (target_dir (mkAECfg "out" false true)) = false /\
  AE_output_path (mkAECfg "out" false true) (Some (mkPacket (PStr "a b.zip"))) = Ok "out"%string.
Proof.
  split; [reflexivity|]. split; [reflexivity|]. split.
  - apply (proj1 AE_output_path_template); reflexivity.
  - split; [reflexivity|]. apply (proj2 AE_output_path_template); reflexivity.
Defined.

Lemma Vsi_output_path_template_witness :
  no_percent "out_" = true /\ no_percent ".gml" = true /\
  Vsi_output_path (mkFECfg ("out_" ++ "%s" ++ ".gml") true 4) (Some sample_vsi_packet)
  = Ok ("out_" ++ safe_filename "/vsizip/a.zip/x.gml" ++ ".gml")%string /\
  str_contains "%s" (file_path sample_zip_cfg) = false /\
  Vsi_output_path sample_zip_cfg (Some sample_vsi_packet) = Ok (file_path sample_zip_cfg).
Proof.
  split; [reflexivity|]. split; [reflexivity|]. split.
  - apply (proj1 Vsi_output_path_template); reflexivity.
  - split; [reflexivity|]. apply (proj2 Vsi_output_path_template); reflexivity.
Defined.

Lemma Zip_output_path_template_witness :
  no_percent "out_" = true /\ no_percent ".gml" = true /\
  Zip_output_path (mkFECfg ("out_" ++ "%s" ++ ".gml") true 4)
                  (Some (mkPacket (PDict [("file_path", PStr "in.zip"); ("name", PStr "x.gml")])))
  = Ok ("out_" ++ safe_filename "x.gml" ++ ".gml")%string /\
  Zip_output_path (mkFECfg ("out_" ++ "%s" ++ ".gml") true 4)
                  (Some (mkPacket (PDict [("file_path", PStr "in.zip")])))
  = Exc KeyError /\
  Zip_output_path (mkFECfg ("out_" ++ "%s" ++ ".gml") true 4)
                  (Some (mkPacket (PDict [("name", PNone)])))
  = Exc TypeError /\
  Zip_output_path (mkFECfg ("out_" ++ "%s" ++ ".gml") true 4)
                  (Some (mkPacket (PStr "in.zip")))
  = Ok ("out_" ++ "%s" ++ ".gml")%string.
Proof.
  split; [reflexivity|]. split; [reflexivity|].
  destruct (Zip_output_path_template "out_" ".gml" true 4 eq_refl eq_refl)
    as [H1 [H2 [H3 H4]]].
  split; [apply H1; reflexivity|]. split; [apply H2; reflexivity|].
  split; [apply (H3 _ PNone); [reflexivity | discriminate]|].
  apply H4. discriminate.
Defined.

Lemma read_chunks_round_trip_witness :
  String.concat "" (read_chunks 4 "abcdefghij") = "abcdefghij"%string /\
  (0 < 4)%Z /\
  Forall (fun c => c <> ""%string /\ (Z.of_nat (String.length c) <= 4)%Z)
         (read_chunks 4 "abcdefghij").
Proof.
  destruct (read_chunks_round_trip 4 "abcdefghij") as [H1 H2].
  split; [exact H1|]. split; [reflexivity|]. apply H2. reflexivity.
Defined.

Lemma Zip_extract_file_writes_member_witness :
  Zip_extract_file sample_unzip sample_zip_cfg (Some sample_zip_packet) sample_zip_world
  = (Ok tt, snd (Zip_extract_file sample_unzip sample_zip_cfg (Some sample_zip_packet)
                                  sample_zip_world)) /\
  exists zp zbytes members name member op,
    index_key (data sample_zip_packet) "file_path" = Ok (PStr zp) /\
    node_read (fs sample_zip_world) zp = Some zbytes /\ sample_unzip zbytes = Some members /\
    index_key (data sample_zip_packet) "name" = Ok (PStr name) /\
    assoc name members = Some member /\
    Zip_output_path sample_zip_cfg (Some sample_zip_packet) = Ok op /\
    node_read (fs (snd (Zip_extract_file sample_unzip sample_zip_cfg (Some sample_zip_packet)
                                         sample_zip_world))) op
    = Some (if (buffer_size sample_zip_cfg =? 0)%Z then ""%string else member).
Proof.
  assert (H : Zip_extract_file sample_unzip sample_zip_cfg (Some sample_zip_packet)
                sample_zip_world
              = (Ok tt, snd (Zip_extract_file sample_unzip sample_zip_cfg
                               (Some sample_zip_packet) sample_zip_world)))
    by (vm_compute; reflexivity).
  split; [exact H|]. exact (Zip_extract_file_writes_member _ _ _ _ _ H).
Defined.

Lemma Vsi_extract_file_copies_content_witness :
  data sample_vsi_packet = PStr "/vsizip/a.zip/x.gml" /\ (0 < buffer_size sample_zip_cfg)%Z /\
  Vsi_extract_file sample_zip_cfg (Some sample_vsi_packet) sample_vsi_world
  = (Ok tt, snd (Vsi_extract_file sample_zip_cfg (Some sample_vsi_packet) sample_vsi_world)) /\
  exists c op, assoc "/vsizip/a.zip/x.gml" (vsi_files sample_vsi_world) = Some c /\
    Vsi_output_path sample_zip_cfg (Some sample_vsi_packet) = Ok op /\
    node_read (fs (snd (Vsi_extract_file sample_zip_cfg (Some sample_vsi_packet)
                                         sample_vsi_world))) op = Some c.
Proof.
  assert (H : Vsi_extract_file sample_zip_cfg (Some sample_vsi_packet) sample_vsi_world
              = (Ok tt, snd (Vsi_extract_file sample_zip_cfg (Some sample_vsi_packet)
                                              sample_vsi_world)))
    by (vm_compute; reflexivity).
  split; [reflexivity|]. split; [reflexivity|]. split; [exact H|].
  exact (Vsi_extract_file_copies_content sample_zip_cfg sample_vsi_packet "/vsizip/a.zip/x.gml" _ _ eq_refl eq_refl H).
Defined.

Lemma FileExtractor_base_invoke_deletes_witness :
  data sample_zip_packet <> PNone /\
  FE_invoke FileExtractor (mkFECfg "out.gml" true 4) sample_zip_packet sample_zip_world =
  (Ok (mkPacket PNone),
   add_log (add_log (set_fs sample_zip_world (node_remove (fs sample_zip_world) "out.gml"))
                    "Only classes derived from FileExtractor can be used!")
           "Extracted file out.gml does not exist") /\
  node_isfile (node_remove (fs sample_zip_world) "out.gml") "out.gml" = false.
Proof.
  split; [discriminate|].
  exact (FileExtractor_base_invoke_deletes "out.gml" true 4 sample_zip_packet sample_zip_world
           ltac:(discriminate)).
Defined.

Lemma Zip_extract_file_failures_witness :
  Zip_extract_file sample_unzip sample_zip_cfg
    (Some (mkPacket (PDict [("name", PStr "x.gml")]))) sample_zip_world
  = (Exc KeyError, sample_zip_world) /\
  Zip_extract_file sample_unzip sample_zip_cfg
    (Some (mkPacket (PDict [("file_path", PStr "gone.zip"); ("name", PStr "x.gml")])))
    sample_zip_world
  = (Exc IOError, sample_zip_world) /\
  Zip_extract_file sample_unzip sample_zip_cfg
    (Some (mkPacket (PDict [("file_path", PStr "out.gml"); ("name", PStr "x.gml")])))
    sample_zip_world
  = (Exc BadZipFile, sample_zip_world) /\
  Zip_extract_file sample_unzip sample_zip_cfg
    (Some (mkPacket (PDict [("file_path", PStr "in.zip"); ("name", PStr "y.gml")])))
    sample_zip_world
  = (Exc KeyError, snd (os_open_write "out.gml" sample_zip_world)) /\
  node_read (fs (snd (os_open_write "out.gml" sample_zip_world))) "out.gml" = Some ""%string.
Proof.
  split; [|split; [|split]].
  - apply (Zip_extract_file_failures sample_unzip sample_zip_cfg
             (mkPacket (PDict [("name", PStr "x.gml")])) sample_zip_world).
    reflexivity.
  - apply (Zip_extract_file_failures sample_unzip sample_zip_cfg
             (mkPacket (PDict [("file_path", PStr "gone.zip"); ("name", PStr "x.gml")]))
             sample_zip_world) with (zp := "gone.zip"%string); reflexivity.
  - apply (Zip_extract_file_failures sample_unzip sample_zip_cfg
             (mkPacket (PDict [("file_path", PStr "out.gml"); ("name", PStr "x.gml")]))
             sample_zip_world) with (zp := "out.gml"%string) (zb := "old"%string);
      reflexivity.
  - apply (Zip_extract_file_failures sample_unzip sample_zip_cfg
             (mkPacket (PDict [("file_path", PStr "in.zip"); ("name", PStr "y.gml")]))
             sample_zip_world)
      with (zp := "in.zip"%string) (zb := "ZIPBYTES"%string)
           (members := [("x.gml", "<gml/>")]%string) (op := "out.gml"%string)
           (name := "y.gml"%string); vm_compute; reflexivity.
Defined.

Lemma Zip_expand_archive_flat_witness :
  str_endswith (str_lower "in.zip") "zip" = true /\
  node_read (fs sample_expand_world) "in.zip" = Some "ZIPBYTES"%string /\
  sample_unzip "ZIPBYTES" = Some [("x.gml", "<gml/>")]%string /\
  lookup (fs sample_expand_world) (split_path "out") = Some (Dir []) /\
  exists w' es', Zip_expand_archive sample_unzip (mkAECfg "out" false true) (PStr "in.zip")
                   "out" sample_expand_world = (Ok tt, w') /\
    lookup (fs w') (split_path "out") = Some (Dir es') /\
    forall x, assoc x es' = match assoc x (rev [("x.gml", "<gml/>")]%string) with
                            | Some c => Some (File c)
                            | None => assoc x []
                            end.
Proof.
  split; [reflexivity|]. split; [reflexivity|]. split; [reflexivity|].
  split; [reflexivity|].
  apply (Zip_expand_archive_flat sample_unzip (mkAECfg "out" false true) "in.zip" "out"
           sample_expand_world "ZIPBYTES" [("x.gml", "<gml/>")]%string []);
    reflexivity.
Defined.

Lemma Vsi_extract_file_unknown_path_witness :
  faults sample_vsi_world = [] /\
  assoc "/vsizip/b.zip/y.gml" (vsi_files sample_vsi_world) = None /\
  Vsi_output_path sample_zip_cfg (Some (mkPacket (PStr "/vsizip/b.zip/y.gml"))) = Ok "out.gml"%string /\
  os_open_write "out.gml" sample_vsi_world = (Ok tt, snd (os_open_write "out.gml" sample_vsi_world)) /\
  exists w', Vsi_extract_file sample_zip_cfg (Some (mkPacket (PStr "/vsizip/b.zip/y.gml")))
               sample_vsi_world = (Exc ValueError, w') /\
    node_read (fs w') "out.gml" = Some ""%string /\ handles w' = handles sample_vsi_world /\
    log w' = log sample_vsi_world ++
             ["Extracting " ++ "/vsizip/b.zip/y.gml"; "Cannot extract " ++ "/vsizip/b.zip/y.gml"]%string.
Proof.
  split; [reflexivity|]. split; [reflexivity|]. split; [reflexivity|].
  split; [reflexivity|].
  apply (Vsi_extract_file_unknown_path sample_zip_cfg (mkPacket (PStr "/vsizip/b.zip/y.gml"))
           "/vsizip/b.zip/y.gml" "out.gml" sample_vsi_world
           (snd (os_open_write "out.gml" sample_vsi_world))); reflexivity.
Defined.
